(** * pty-wrapper: a pseudo-terminal relay and its shutdown path

    Shallow embedding of [runner-agent/pty-wrapper.py].  The script is a
    sequence of operating-system calls threaded through Python's exception
    mechanism, so it is modelled in a small monad that carries

    - the resources of the wrapper process that the script acquires and
      releases (its open descriptors and the attributes of the terminal on
      standard input),
    - the ordered list of calls the script makes (its observable events),
    - Python's control flow: a value, a raised exception, or a loop that is
      still waiting for the environment.

    What the operating system answers (which descriptors are ready, what a
    read returns, whether the child has exited, when a signal arrives) is
    supplied by an explicit environment. *)

From Stdlib Require Import ZArith List String Bool Arith Lia.
Import ListNotations.
Open Scope Z_scope.

(** ** Python values and exceptions *)

Definition fd := Z.
Definition bytes := list Byte.byte.

(** [sys.stdin.fileno()] and [sys.stdout.fileno()]. *)
Definition stdin_fileno : fd := 0.
Definition stdout_fileno : fd := 1.

Definition EBADF : Z := 9.

(** The exception classes that matter for the script.  Library calls raise
    subclasses of [Exception]; [termios.error] and
    [subprocess.TimeoutExpired] are not [OSError]s. *)
Inductive exception : Type :=
| OSError (errno : Z)
| TermiosError
| TimeoutExpired
| ValueError.

(** [SystemExit] and [KeyboardInterrupt] derive from [BaseException]
    only. *)
Inductive exn : Type :=
| SystemExit (code : Z)
| KeyboardInterrupt
| Exception (e : exception).

(** [except:] *)
Definition bare_except (_ : exn) : bool := true.

(** [except Exception] *)
Definition is_Exception (e : exn) : bool :=
  match e with
  | Exception _ => true
  | SystemExit _ | KeyboardInterrupt => false
  end.

(** [except OSError] *)
Definition is_OSError (e : exn) : bool :=
  match e with
  | Exception (OSError _) => true
  | _ => false
  end.

(** What [termios.tcgetattr] returns: the list
    [[iflag, oflag, cflag, lflag, ispeed, ospeed, cc]]. *)
Record termios_attrs : Type := Attrs {
  iflag : Z; oflag : Z; cflag : Z; lflag : Z;
  ispeed : Z; ospeed : Z; cc : list Z
}.

Definition attrs_items (a : termios_attrs) : list (Z + list Z) :=
  [inl (iflag a); inl (oflag a); inl (cflag a); inl (lflag a);
   inl (ispeed a); inl (ospeed a); inr (cc a)].

(** Truth value of [old_settings]: [None] is false, a list is true when it
    is not empty. *)
Definition truthy_settings (o : option termios_attrs) : bool :=
  match o with
  | None => false
  | Some a => negb (Nat.eqb (List.length (attrs_items a)) 0)
  end.

(** Truth value of a [bytes] object. *)
Definition truthy_bytes (b : bytes) : bool :=
  match b with
  | [] => false
  | _ :: _ => true
  end.

Inductive signum : Type := SIGTERM | SIGINT.
Inductive preexec : Type := os_setsid.
Inductive tc_when : Type := TCSADRAIN.
Definition environ := list (string * string).

Definition usage : string :=
  "Usage: pty-wrapper.py <command> <args...>"%string.

(** Timeouts, in milliseconds: [select(..., 0.1)] and [wait(timeout=1)]. *)
Definition select_timeout : Z := 100.
Definition wait_timeout : Z := 1000.

(** ** Events, resources and the monad *)

(** The calls the script makes, in the order it makes them.  [EvClose]
    records whether the descriptor was open, that is, whether the call
    released it. *)
Inductive event : Type :=
| EvPrintStderr (s : string)
| EvTcgetattr (f : fd)
| EvOpenpty
| EvPopen (argv : list string) (stdin stdout stderr : fd)
          (close_fds : bool) (preexec_fn : preexec) (env : environ)
| EvClose (f : fd) (released : bool)
| EvSignal (sig : signum)
| EvSelect (rfds : list fd) (timeout : Z)
| EvRead (f : fd) (n : Z)
| EvWrite (f : fd) (data : bytes)
| EvPoll
| EvTerminate
| EvWait (timeout : Z)
| EvKill
| EvTcsetattr (f : fd) (when : tc_when) (a : termios_attrs).

(** Resources of the wrapper process. [tty] is [None] when standard input
    is not a terminal. *)
Record World : Type := mkWorld {
  open_fds : list fd;
  tty : option termios_attrs
}.

(** How a piece of the script ends: with a value, with a raised exception,
    or, for the relay loop only, still waiting for the environment. *)
Inductive res (A : Type) : Type :=
| Val (a : A)
| Exc (e : exn)
| More.
Arguments Val {A} a.
Arguments Exc {A} e.
Arguments More {A}.

(** A run: how it ended, the resources it left and the calls it made. *)
Record run (A : Type) : Type := Run {
  result : res A;
  final : World;
  events : list event
}.
Arguments Run {A} result final events.
Arguments result {A} r.
Arguments final {A} r.
Arguments events {A} r.

Definition M (A : Type) : Type := World -> run A.

Definition ret {A} (a : A) : M A := fun w => Run (Val a) w [].

Definition bind {A B} (m : M A) (f : A -> M B) : M B :=
  fun w =>
    match m w with
    | Run (Val a) w1 ev1 =>
        match f a w1 with
        | Run r w2 ev2 => Run r w2 (ev1 ++ ev2)
        end
    | Run (Exc e) w1 ev1 => Run (Exc e) w1 ev1
    | Run More w1 ev1 => Run More w1 ev1
    end.

Definition raise {A} (e : exn) : M A := fun w => Run (Exc e) w [].

Definition emit (ev : event) : M unit := fun w => Run (Val tt) w [ev].

(** An answer of the operating system, decided outside the program: the
    call returns or raises. *)
Inductive ans (A : Type) : Type :=
| Returns (a : A)
| Raises (e : exception).
Arguments Returns {A} a.
Arguments Raises {A} e.

Definition answer {A} (r : ans A) : M A :=
  fun w => match r with
           | Returns a => Run (Val a) w []
           | Raises e => Run (Exc (Exception e)) w []
           end.

(** [try: body except <class>: handler] *)
Definition try_except {A} (body : M A) (catches : exn -> bool)
           (handler : exn -> M A) : M A :=
  fun w =>
    match body w with
    | Run (Exc e) w1 ev1 =>
        if catches e then
          match handler e w1 with
          | Run r w2 ev2 => Run r w2 (ev1 ++ ev2)
          end
        else Run (Exc e) w1 ev1
    | r => r
    end.

Declare Scope py_scope.
Delimit Scope py_scope with py.
Notation "x <- m ;; k" := (bind m (fun x => k))
  (at level 100, m at next level, right associativity) : py_scope.
Notation "m ;; k" := (bind m (fun _ => k))
  (at level 100, right associativity) : py_scope.
Open Scope py_scope.

Definition pass : M unit := ret tt.

(** ** Library calls *)

(** [f in l] *)
Definition mem (f : fd) (l : list fd) : bool := existsb (Z.eqb f) l.

Definition print_stderr (s : string) : M unit := emit (EvPrintStderr s).

Definition sys_exit {A} (code : Z) : M A := raise (SystemExit code).

(** [termios.tcgetattr] and [termios.tcsetattr] are only called on standard
    input; they raise [termios.error] when it is not a terminal. *)
Definition termios_tcgetattr (f : fd) : M termios_attrs :=
  emit (EvTcgetattr f) ;;
  fun w => match tty w with
           | Some a => Run (Val a) w []
           | None => Run (Exc (Exception TermiosError)) w []
           end.

Definition termios_tcsetattr (f : fd) (when : tc_when) (a : termios_attrs)
  : M unit :=
  emit (EvTcsetattr f when a) ;;
  fun w => match tty w with
           | Some _ => Run (Val tt) (mkWorld (open_fds w) (Some a)) []
           | None => Run (Exc (Exception TermiosError)) w []
           end.

(** [pty.openpty] returns the pair [(master, slave)], both open from then
    on. *)
Definition pty_openpty (r : ans (fd * fd)) : M (fd * fd) :=
  emit EvOpenpty ;;
  fun w => match r with
           | Returns (m, s) =>
               Run (Val (m, s)) (mkWorld (s :: m :: open_fds w) (tty w)) []
           | Raises e => Run (Exc (Exception e)) w []
           end.

Definition subprocess_Popen (argv : list string) (i o e : fd)
           (close_fds : bool) (pre : preexec) (env : environ)
           (r : ans Z) : M Z :=
  emit (EvPopen argv i o e close_fds pre env) ;; answer r.

(** [os.close] releases an open descriptor and raises [OSError] (EBADF) on
    one that is not open. *)
Definition os_close (f : fd) : M unit :=
  fun w =>
    if mem f (open_fds w) then
      Run (Val tt) (mkWorld (remove Z.eq_dec f (open_fds w)) (tty w))
          [EvClose f true]
    else
      Run (Exc (Exception (OSError EBADF))) w [EvClose f false].

Definition signal_signal (sig : signum) : M unit := emit (EvSignal sig).

Definition os_read (f : fd) (n : Z) (r : ans bytes) : M bytes :=
  emit (EvRead f n) ;; answer r.

Definition os_write (f : fd) (data : bytes) (r : ans Z) : M Z :=
  emit (EvWrite f data) ;; answer r.

Definition proc_poll (r : ans (option Z)) : M (option Z) :=
  emit EvPoll ;; answer r.

Definition proc_terminate (r : ans unit) : M unit :=
  emit EvTerminate ;; answer r.

Definition proc_wait (timeout : Z) (r : ans Z) : M Z :=
  emit (EvWait timeout) ;; answer r.

Definition proc_kill (r : ans unit) : M unit :=
  emit EvKill ;; answer r.

(** ** The environment of one execution *)

(** How the child answers the calls of one run of [cleanup]. *)
Record proc_answers : Type := ProcAnswers {
  a_terminate : ans unit;
  a_wait : ans Z;
  a_kill : ans unit
}.

(** The places inside [cleanup] where a pending signal can be delivered:
    when one of its calls is about to start, or between two of its
    statements.  Python runs the handler there, on the main thread, and an
    exception the handler raises surfaces at that place: inside the [try]
    block of the call, or outside any [try] for [AfterClose] (line 51),
    [AfterStop] (line 59) and [AtExit] (line 64). *)
Inductive point : Type :=
| AtClose | AfterClose | AtTerminate | AtWait | AtKill | AfterStop
| AtRestore | AtExit.

Definition point_eqb (p q : point) : bool :=
  match p, q with
  | AtClose, AtClose | AfterClose, AfterClose | AtTerminate, AtTerminate
  | AtWait, AtWait | AtKill, AtKill | AfterStop, AfterStop
  | AtRestore, AtRestore | AtExit, AtExit => true
  | _, _ => false
  end.

(** What happens while [cleanup] runs: either no signal arrives, or one
    arrives at [p] and the handler (again [cleanup]) runs under its own
    schedule. *)
Inductive schedule : Type :=
| Quiet (a : proc_answers)
| Interrupted (a : proc_answers) (p : point) (handler : schedule).

Fixpoint invocations (sh : schedule) : nat :=
  match sh with
  | Quiet _ => 1
  | Interrupted _ _ h => S (invocations h)
  end.

(** What the operating system answers during one iteration of the relay
    loop.  [t_signal] is a SIGTERM or SIGINT delivered while [select]
    waits. *)
Record tick : Type := Tick {
  t_signal : option signum;
  t_select : ans (list fd);
  t_master_read : ans bytes;
  t_stdout_write : ans Z;
  t_stdin_read : ans bytes;
  t_master_write : ans Z;
  t_poll : ans (option Z)
}.

Record env : Type := Env {
  e_argv : list string;
  e_environ : environ;
  e_openpty : ans (fd * fd);
  e_popen : ans Z;
  e_ticks : list tick;
  e_shutdown : schedule
}.

(** ** The program *)

(** The variables of [main] that [cleanup] closes over. *)
Record Session : Type := mkSession {
  old_settings : option termios_attrs;
  master_fd : fd;
  proc : Z
}.

(** [cleanup], lines 46-64; [sig] delivers a pending signal. *)
Definition cleanup_steps (s : Session) (a : proc_answers)
           (sig : point -> M unit) : M unit :=
  try_except (sig AtClose ;; os_close (master_fd s))
             bare_except (fun _ => pass) ;;
  sig AfterClose ;;
  try_except (sig AtTerminate ;;
              proc_terminate (a_terminate a) ;;
              sig AtWait ;;
              _ <- proc_wait wait_timeout (a_wait a) ;;
              ret tt)
             bare_except
             (fun _ => try_except (sig AtKill ;; proc_kill (a_kill a))
                                  bare_except (fun _ => pass)) ;;
  sig AfterStop ;;
  (if truthy_settings (old_settings s) then
     match old_settings s with
     | Some old =>
         try_except (sig AtRestore ;;
                     termios_tcsetattr stdin_fileno TCSADRAIN old)
                    bare_except (fun _ => pass)
     | None => pass
     end
   else pass) ;;
  sig AtExit ;;
  sys_exit 0.

Fixpoint cleanup (s : Session) (sh : schedule) : M unit :=
  match sh with
  | Quiet a => cleanup_steps s a (fun _ => pass)
  | Interrupted a p h =>
      cleanup_steps s a (fun q => if point_eqb p q then cleanup s h else pass)
  end.

(** [select.select], line 72: a signal that arrives during the wait runs
    the installed handler. *)
Definition select_select (rfds : list fd) (timeout : Z)
           (handler : M unit) (t : tick) : M (list fd) :=
  emit (EvSelect rfds timeout) ;;
  match t_signal t with
  | Some _ => handler ;; answer (t_select t)
  | None => answer (t_select t)
  end.

(** Lines 75-81. *)
Definition forward_output (s : Session) (t : tick) : M unit :=
  try_except
    (data <- os_read (master_fd s) 4096 (t_master_read t) ;;
     if truthy_bytes data then
       _ <- os_write stdout_fileno data (t_stdout_write t) ;; ret tt
     else pass)
    is_OSError (fun _ => pass).

(** Lines 84-93. *)
Definition forward_input (s : Session) (sh : schedule) (t : tick) : M unit :=
  try_except
    (data <- os_read stdin_fileno 1024 (t_stdin_read t) ;;
     if truthy_bytes data then
       _ <- os_write (master_fd s) data (t_master_write t) ;; ret tt
     else cleanup s sh)
    is_OSError (fun _ => pass).

(** Lines 96-97. *)
Definition check_exited (s : Session) (sh : schedule) (t : tick) : M unit :=
  rc <- proc_poll (t_poll t) ;;
  match rc with
  | Some _ => cleanup s sh
  | None => pass
  end.

(** One iteration of [while True], lines 72-97. *)
Definition relay_iteration (s : Session) (sh : schedule) (t : tick)
  : M unit :=
  rlist <- select_select [master_fd s; stdin_fileno] select_timeout
                         (cleanup s sh) t ;;
  (if mem (master_fd s) rlist then forward_output s t else pass) ;;
  (if mem stdin_fileno rlist then forward_input s sh t else pass) ;;
  check_exited s sh t.

(** [while True]: one iteration per tick; with no tick left the loop is
    waiting in [select]. *)
Fixpoint relay (s : Session) (sh : schedule) (ticks : list tick) : M unit :=
  match ticks with
  | [] => fun w => Run More w []
  | t :: ts => relay_iteration s sh t ;; relay s sh ts
  end.

(** Lines 69-100. *)
Definition relay_loop (s : Session) (sh : schedule) (ticks : list tick)
  : M unit :=
  try_except (relay s sh ticks) is_Exception (fun _ => cleanup s sh).

(** Lines 20-44: capture the attributes, open the pty, spawn, close the
    slave. *)
Definition startup (e : env) : M Session :=
  let command := nth 1 (e_argv e) EmptyString in
  let args := skipn 2 (e_argv e) in
  old_settings <-
    try_except (a <- termios_tcgetattr stdin_fileno ;; ret (Some a))
               bare_except (fun _ => ret None) ;;
  fds <- pty_openpty (e_openpty e) ;;
  let master_fd := fst fds in
  let slave_fd := snd fds in
  proc <- subprocess_Popen (command :: args) slave_fd slave_fd slave_fd
                           true os_setsid (e_environ e) (e_popen e) ;;
  os_close slave_fd ;;
  ret (mkSession old_settings master_fd proc).

Definition main (e : env) : M unit :=
  if (List.length (e_argv e) <? 2)%nat then
    print_stderr usage ;;
    sys_exit 1
  else
    s <- startup e ;;
    signal_signal SIGTERM ;;
    signal_signal SIGINT ;;
    relay_loop s (e_shutdown e) (e_ticks e).

(** Exit status of the interpreter: [SystemExit n] exits with [n]; an
    uncaught [KeyboardInterrupt] ends the process by SIGINT, which is
    reported as 130; any other uncaught exception prints a traceback and
    exits with 1. *)
Definition exit_status (r : res unit) : option Z :=
  match r with
  | Val _ => Some 0
  | Exc (SystemExit n) => Some n
  | Exc KeyboardInterrupt => Some 130
  | Exc (Exception _) => Some 1
  | More => None
  end.

(** ** Observations on event lists *)

Definition is_restore (ev : event) : bool :=
  match ev with EvTcsetattr _ _ _ => true | _ => false end.

Definition is_close_attempt (f : fd) (ev : event) : bool :=
  match ev with EvClose g _ => Z.eqb f g | _ => false end.

Definition is_release (f : fd) (ev : event) : bool :=
  match ev with EvClose g true => Z.eqb f g | _ => false end.

Definition restores (evs : list event) : nat :=
  List.length (filter is_restore evs).

Definition close_attempts (f : fd) (evs : list event) : nat :=
  List.length (filter (is_close_attempt f) evs).

Definition releases (f : fd) (evs : list event) : nat :=
  List.length (filter (is_release f) evs).

(** Resources after a single, undisturbed shutdown. *)
Definition after_shutdown (s : Session) (w : World) : World :=
  mkWorld (remove Z.eq_dec (master_fd s) (open_fds w))
          (match tty w, old_settings s with
           | Some _, Some old => Some old
           | t, _ => t
           end).


(** Number of times a close of [f] releases it, starting from [w]. *)
Definition release_count (f : fd) (w : World) : nat :=
  if mem f (open_fds w) then 1%nat else 0%nat.

(** Restores made by one run of [cleanup]. *)
Definition restore_floor (s : Session) : nat :=
  if truthy_settings (old_settings s) then 1%nat else 0%nat.

(** The calls made by [cleanup]. *)
Definition is_shutdown_event (ev : event) : bool :=
  match ev with
  | EvClose _ _ | EvTerminate | EvWait _ | EvKill | EvTcsetattr _ _ _ => true
  | _ => false
  end.

(** The calls of the output branch, lines 75-81, for master [m]. *)
Inductive output_events (m : fd) : list event -> Prop :=
| out_idle : output_events m []
| out_read : output_events m [EvRead m 4096]
| out_forward (data : bytes) :
    output_events m [EvRead m 4096; EvWrite stdout_fileno data].

(** The calls of the input branch, lines 84-93, before any shutdown. *)
Inductive input_events (m : fd) : list event -> Prop :=
| in_idle : input_events m []
| in_read : input_events m [EvRead stdin_fileno 1024]
| in_forward (data : bytes) :
    input_events m [EvRead stdin_fileno 1024; EvWrite m data].

(** The calls of the exit check, lines 96-97, and of a shutdown. *)
Inductive exit_events : list event -> Prop :=
| exit_not_reached (evs : list event) :
    forallb is_shutdown_event evs = true -> exit_events evs
| exit_polled (evs : list event) :
    forallb is_shutdown_event evs = true -> exit_events (EvPoll :: evs).

(** The three triggers of a shutdown inside one iteration. *)
Definition signalled (t : tick) : Prop := t_signal t <> None.

Definition stdin_eof (t : tick) : Prop :=
  exists rlist, t_select t = Returns rlist
                /\ mem stdin_fileno rlist = true
                /\ t_stdin_read t = Returns [].

Definition child_exited (t : tick) : Prop :=
  exists rc, t_poll t = Returns (Some rc).

(** A run prefixed by earlier events. *)
Definition extend {A} (ev1 : list event) (r : run A) : run A :=
  Run (result r) (final r) (ev1 ++ events r).

(** The ways one iteration of the relay loop can end, started in [w]. *)
Inductive iteration_ends (s : Session) (sh : schedule) (t : tick) (w : World)
  : run unit -> Prop :=
| it_continues (evs : list event) :
    t_signal t = None -> ~ stdin_eof t -> t_poll t = Returns None ->
    iteration_ends s sh t w (Run (Val tt) w evs)
| it_raises (e : exception) (evs : list event) :
    iteration_ends s sh t w (Run (Exc (Exception e)) w evs)
| it_shuts (evs : list event) :
    iteration_ends s sh t w (extend evs (cleanup s sh w)).

(** ** Concrete executions *)

Module Example.

Definition cooked : termios_attrs := Attrs 17664 5 191 35387 15 15 [3; 28].
Definition raw : termios_attrs := Attrs 0 4 191 0 15 15 [3; 28].

Definition master : fd := 3.
Definition slave : fd := 4.

(** The child exits on SIGTERM within the grace period. *)
Definition obedient : proc_answers :=
  ProcAnswers (Returns tt) (Returns 0) (Returns tt).

Definition terminal : World := mkWorld [0; 1; 2] (Some cooked).
Definition pipe : World := mkWorld [0; 1; 2] None.

(** After start-up, with the terminal mode changed in the meantime. *)
Definition relaying : World := mkWorld [3; 0; 1; 2] (Some raw).
Definition session : Session := mkSession (Some cooked) master 4242.

(** A second signal arrives while the first shutdown waits for the
    child. *)
Definition second_signal : schedule :=
  Interrupted obedient AtWait (Quiet obedient).

Definition idle : tick :=
  Tick None (Returns []) (Returns []) (Returns 0) (Returns []) (Returns 0)
       (Returns None).

(** The child has exited with status 7 and nothing is readable. *)
Definition child_gone : tick :=
  Tick None (Returns []) (Returns []) (Returns 0) (Returns []) (Returns 0)
       (Returns (Some 7)).

(** Standard input is readable and at end of file. *)
Definition input_closed : tick :=
  Tick None (Returns [stdin_fileno]) (Returns []) (Returns 0) (Returns [])
       (Returns 0) (Returns None).

(** The master is readable and at end of file. *)
Definition master_eof : tick :=
  Tick None (Returns [master]) (Returns []) (Returns 0) (Returns [])
       (Returns 0) (Returns None).

(** The child has written two bytes and two bytes were typed. *)
Definition busy : tick :=
  Tick None (Returns [master; stdin_fileno])
       (Returns [Byte.x6f; Byte.x6b]) (Returns 2)
       (Returns [Byte.x6c; Byte.x73]) (Returns 2)
       (Returns None).

(** A SIGTERM arrives while [select] waits. *)
Definition terminated : tick :=
  Tick (Some SIGTERM) (Returns []) (Returns []) (Returns 0) (Returns [])
       (Returns 0) (Returns None).

(** [select] fails. *)
Definition select_fails : tick :=
  Tick None (Raises ValueError) (Returns []) (Returns 0) (Returns [])
       (Returns 0) (Returns None).

Definition no_command : env :=
  Env ["pty-wrapper.py"%string] [] (Returns (master, slave)) (Returns 4242)
      [] (Quiet obedient).

Definition run_true : env :=
  Env ["pty-wrapper.py"%string; "true"%string]
      [("TERM"%string, "xterm"%string)]
      (Returns (master, slave)) (Returns 4242)
      [idle; child_gone] (Quiet obedient).

(** [Popen] raises [FileNotFoundError], an [OSError] with errno 2. *)
Definition missing_executable : env :=
  Env ["pty-wrapper.py"%string; "no-such-command"%string] []
      (Returns (master, slave)) (Raises (OSError 2))
      [idle] (Quiet obedient).

End Example.

(** ** Further observations on runs *)

(** The calls made by the relay loop itself. *)
Definition is_relay_event (ev : event) : bool :=
  match ev with
  | EvSelect _ _ | EvRead _ _ | EvWrite _ _ | EvPoll => true
  | _ => false
  end.

Definition is_read (f : fd) (ev : event) : bool :=
  match ev with EvRead g _ => Z.eqb f g | _ => false end.

Definition is_spawn (ev : event) : bool :=
  match ev with EvPopen _ _ _ _ _ _ _ => true | _ => false end.

Definition is_openpty (ev : event) : bool :=
  match ev with EvOpenpty => true | _ => false end.

Definition is_terminate (ev : event) : bool :=
  match ev with EvTerminate => true | _ => false end.

Definition is_handler_install (ev : event) : bool :=
  match ev with EvSignal _ => true | _ => false end.

Definition count (p : event -> bool) (evs : list event) : nat :=
  List.length (filter p evs).

(** The data passed to [os.write] on [f], call by call. *)
Fixpoint chunks_written (f : fd) (evs : list event) : list bytes :=
  match evs with
  | [] => []
  | EvWrite g data :: evs' =>
      if Z.eqb f g then data :: chunks_written f evs'
      else chunks_written f evs'
  | _ :: evs' => chunks_written f evs'
  end.

(** [f in rlist] for the [rlist] that [select] returns in this tick. *)
Definition ready (f : fd) (t : tick) : bool :=
  match t_select t with
  | Returns rlist => mem f rlist
  | Raises _ => false
  end.

(** What the loop reads from the master in this tick, and from standard
    input. *)
Definition master_chunk (s : Session) (t : tick) : bytes :=
  if ready (master_fd s) t then
    match t_master_read t with
    | Returns data => data
    | Raises _ => []
    end
  else [].

Definition stdin_chunk (t : tick) : bytes :=
  if ready stdin_fileno t then
    match t_stdin_read t with
    | Returns data => data
    | Raises _ => []
    end
  else [].

(** The calls of the output branch and how it ends, read off lines
    75-81. *)
Definition output_calls (s : Session) (t : tick) : list event :=
  match t_master_read t with
  | Returns (b :: data) =>
      [EvRead (master_fd s) 4096; EvWrite stdout_fileno (b :: data)]
  | _ => [EvRead (master_fd s) 4096]
  end.

Definition swallow (e : exception) : res unit :=
  if is_OSError (Exception e) then Val tt else Exc (Exception e).

Definition output_result (t : tick) : res unit :=
  match t_master_read t with
  | Returns [] => Val tt
  | Returns (_ :: _) =>
      match t_stdout_write t with
      | Returns _ => Val tt
      | Raises e => swallow e
      end
  | Raises e => swallow e
  end.

(** The calls of the input branch before any shutdown, and how it ends when
    the read is not at end of file, read off lines 84-93. *)
Definition input_calls (s : Session) (t : tick) : list event :=
  match t_stdin_read t with
  | Returns (b :: data) =>
      [EvRead stdin_fileno 1024; EvWrite (master_fd s) (b :: data)]
  | _ => [EvRead stdin_fileno 1024]
  end.

Definition input_result (t : tick) : res unit :=
  match t_stdin_read t with
  | Returns [] => Val tt
  | Returns (_ :: _) =>
      match t_master_write t with
      | Returns _ => Val tt
      | Raises e => swallow e
      end
  | Raises e => swallow e
  end.

(** The calls of an iteration that runs to its end. *)
Definition iteration_calls (s : Session) (t : tick) : list event :=
  EvSelect [master_fd s; stdin_fileno] select_timeout
    :: (if ready (master_fd s) t then output_calls s t else [])
    ++ (if ready stdin_fileno t then input_calls s t else [])
    ++ [EvPoll].

(** An answer that does not leave an [except OSError] block. *)
Definition swallowed {A} (r : ans A) : bool :=
  match r with
  | Returns _ => true
  | Raises e => is_OSError (Exception e)
  end.

Definition at_eof (r : ans bytes) : bool :=
  match r with
  | Returns [] => true
  | _ => false
  end.

(** A tick with no trigger of a shutdown, in which the calls of the two
    branches return or raise [OSError]. *)
Definition survivable (t : tick) : bool :=
  match t_signal t, t_select t, t_poll t with
  | None, Returns rlist, Returns None =>
      swallowed (t_master_read t) && swallowed (t_stdout_write t)
      && swallowed (t_stdin_read t) && swallowed (t_master_write t)
      && negb (mem stdin_fileno rlist && at_eof (t_stdin_read t))
  | _, _, _ => false
  end.

(** The calls of an undisturbed [cleanup], read off lines 46-64. *)
Definition stop_calls (a : proc_answers) : list event :=
  match a_terminate a, a_wait a with
  | Returns _, Returns _ => [EvTerminate; EvWait wait_timeout]
  | Returns _, Raises _ => [EvTerminate; EvWait wait_timeout; EvKill]
  | Raises _, _ => [EvTerminate; EvKill]
  end.

Definition restore_calls (s : Session) : list event :=
  match old_settings s with
  | Some old => [EvTcsetattr stdin_fileno TCSADRAIN old]
  | None => []
  end.

(** The calls of a loop in which every iteration runs to its end. *)
Definition relay_calls (s : Session) (ticks : list tick) : list event :=
  flat_map (iteration_calls s) ticks.

Definition raises {A} (r : ans A) : bool :=
  match r with
  | Returns _ => false
  | Raises _ => true
  end.

Definition is_kill (ev : event) : bool :=
  match ev with EvKill => true | _ => false end.

(** ** Further concrete executions *)

Module Scenario.

(** No pty is left: [openpty] raises [OSError] with errno 24 (EMFILE). *)
Definition no_pty : env :=
  Env ["pty-wrapper.py"%string; "true"%string] []
      (Raises (OSError 24)) (Returns 4242) [] (Quiet Example.obedient).

(** The child has closed its side: reading the master raises [OSError]
    with errno 5 (EIO), and the poll does not see the exit yet. *)
Definition hung_up : tick :=
  Tick None (Returns [Example.master]) (Raises (OSError 5)) (Returns 0)
       (Returns []) (Returns 0) (Returns None).

(** Standard output is a closed pipe: the write raises [OSError] with
    errno 32 (EPIPE). *)
Definition broken_pipe : tick :=
  Tick None (Returns [Example.master]) (Returns [Byte.x6f; Byte.x6b])
       (Raises (OSError 32)) (Returns []) (Returns 0) (Returns None).

(** Only standard input is readable. *)
Definition typed : tick :=
  Tick None (Returns [stdin_fileno]) (Returns [Byte.x6f])
       (Returns 1) (Returns [Byte.x6c; Byte.x73]) (Returns 2)
       (Returns None).

(** A session that is still running after two iterations. *)
Definition long_session : env :=
  Env ["pty-wrapper.py"%string; "cat"%string] []
      (Returns (Example.master, Example.slave)) (Returns 4242)
      [Example.busy; hung_up] (Quiet Example.obedient).

End Scenario.

(** Evaluation of a run up to the calls of a signal handler. *)
Ltac eval_py :=
  cbv - [cleanup remove mem Z.eq_dec invocations Nat.mul Nat.add releases
         restores release_count restore_floor app Z.eqb forallb
         is_shutdown_event].

(** Two runs that differ in the grouping of their events. *)
Ltac same_run :=
  unfold extend; simpl; rewrite ?app_nil_r, <- ?app_assoc; simpl;
  reflexivity.

(** ** Basic facts about the monad *)

Lemma run_eta {A} (r : run A) : r = Run (result r) (final r) (events r).
Proof. destruct r. reflexivity. Qed.

Lemma extend_nil {A} (r : run A) : extend [] r = r.
Proof. destruct r. reflexivity. Qed.

Lemma extend_extend {A} (ev1 ev2 : list event) (r : run A) :
  extend ev1 (extend ev2 r) = extend (ev1 ++ ev2) r.
Proof. unfold extend. simpl. rewrite app_assoc. reflexivity. Qed.

Lemma bind_val {A B} (m : M A) (f : A -> M B) (w w1 : World) (a : A)
      (ev1 : list event) :
  m w = Run (Val a) w1 ev1 ->
  bind m f w = extend ev1 (f a w1).
Proof. intros H. unfold bind. rewrite H. destruct (f a w1); reflexivity. Qed.

Lemma bind_exc {A B} (m : M A) (f : A -> M B) (w w1 : World) (e : exn)
      (ev1 : list event) :
  m w = Run (Exc e) w1 ev1 ->
  bind m f w = Run (Exc e) w1 ev1.
Proof. intros H. unfold bind. rewrite H. reflexivity. Qed.

Lemma bind_more {A B} (m : M A) (f : A -> M B) (w w1 : World)
      (ev1 : list event) :
  m w = Run More w1 ev1 ->
  bind m f w = Run More w1 ev1.
Proof. intros H. unfold bind. rewrite H. reflexivity. Qed.

Lemma try_caught {A} (body : M A) (catches : exn -> bool)
      (handler : exn -> M A) (w w1 : World) (e : exn) (ev1 : list event) :
  body w = Run (Exc e) w1 ev1 ->
  catches e = true ->
  try_except body catches handler w = extend ev1 (handler e w1).
Proof.
  intros H Hc. unfold try_except. rewrite H, Hc.
  destruct (handler e w1); reflexivity.
Qed.

Lemma try_passed {A} (body : M A) (catches : exn -> bool)
      (handler : exn -> M A) (w w1 : World) (e : exn) (ev1 : list event) :
  body w = Run (Exc e) w1 ev1 ->
  catches e = false ->
  try_except body catches handler w = Run (Exc e) w1 ev1.
Proof. intros H Hc. unfold try_except. rewrite H, Hc. reflexivity. Qed.

Lemma try_more {A} (body : M A) (catches : exn -> bool)
      (handler : exn -> M A) (w w1 : World) (ev1 : list event) :
  body w = Run More w1 ev1 ->
  try_except body catches handler w = Run More w1 ev1.
Proof. intros H. unfold try_except. rewrite H. reflexivity. Qed.

(** ** Descriptors, arguments and event counts *)

Lemma mem_In (f : fd) (l : list fd) : mem f l = true <-> In f l.
Proof.
  unfold mem. rewrite existsb_exists. split.
  - intros [x [Hx Heq]]. apply Z.eqb_eq in Heq. subst. exact Hx.
  - intros H. exists f. split; [exact H | apply Z.eqb_refl].
Qed.

Lemma mem_head (f : fd) (l : list fd) : mem f (f :: l) = true.
Proof. apply mem_In. left. reflexivity. Qed.

Lemma mem_remove (f : fd) (l : list fd) : mem f (remove Z.eq_dec f l) = false.
Proof.
  destruct (mem f (remove Z.eq_dec f l)) eqn:E; [|reflexivity].
  apply mem_In in E. exfalso. exact (remove_In Z.eq_dec l f E).
Qed.

Lemma remove_absent (f : fd) (l : list fd) :
  mem f l = false -> remove Z.eq_dec f l = l.
Proof.
  intros H. apply notin_remove. intros Hin.
  apply mem_In in Hin. congruence.
Qed.

Lemma argv_tail (argv : list string) :
  (2 <= List.length argv)%nat ->
  nth 1 argv EmptyString :: skipn 2 argv = skipn 1 argv.
Proof.
  destruct argv as [|prog [|command args]]; simpl; intros H;
    [lia | lia | reflexivity].
Qed.

Lemma restores_app (l1 l2 : list event) :
  restores (l1 ++ l2) = (restores l1 + restores l2)%nat.
Proof. unfold restores. rewrite filter_app, length_app. reflexivity. Qed.

Lemma releases_app (f : fd) (l1 l2 : list event) :
  releases f (l1 ++ l2) = (releases f l1 + releases f l2)%nat.
Proof. unfold releases. rewrite filter_app, length_app. reflexivity. Qed.

Lemma restore_floor_captured (s : Session) :
  restore_floor s = match old_settings s with Some _ => 1 | None => 0 end%nat.
Proof. unfold restore_floor. destruct (old_settings s); reflexivity. Qed.

Lemma after_shutdown_closed (s : Session) (w : World) :
  ~ In (master_fd s) (open_fds (after_shutdown s w)).
Proof. simpl. apply remove_In. Qed.

Lemma after_shutdown_restored (s : Session) (w : World)
      (old : termios_attrs) :
  old_settings s = Some old ->
  tty w <> None ->
  tty (after_shutdown s w) = Some old.
Proof.
  intros Hold Htty. simpl. rewrite Hold.
  destruct (tty w); [reflexivity | congruence].
Qed.

(** ** Shutdown *)

Lemma cleanup_quiet (s : Session) (a : proc_answers) (w : World) :
  result (cleanup s (Quiet a) w) = Exc (SystemExit 0)
  /\ final (cleanup s (Quiet a) w) = after_shutdown s w
  /\ releases (master_fd s) (events (cleanup s (Quiet a) w))
     = release_count (master_fd s) w
  /\ restores (events (cleanup s (Quiet a) w)) = restore_floor s
  /\ forallb is_shutdown_event (events (cleanup s (Quiet a) w)) = true.
Proof.
  destruct s as [old m pid], a as [tm wt kl], w as [fds t].
  unfold release_count, restore_floor, after_shutdown. simpl.
  destruct (mem m fds) eqn:Hm;
    destruct tm as [[]|?], wt as [?|?], kl as [[]|?], old as [old|],
             t as [t|];
    eval_py; rewrite Hm; eval_py;
    unfold releases, restores; simpl; rewrite ?Z.eqb_refl; simpl;
    rewrite ?(remove_absent _ _ Hm); auto.
Qed.

(** Whatever signals arrive while it runs, [cleanup] ends in [sys.exit(0)]
    with the resources of a single undisturbed shutdown. *)
Lemma cleanup_spec (s : Session) (sh : schedule) : forall w : World,
  result (cleanup s sh w) = Exc (SystemExit 0)
  /\ final (cleanup s sh w) = after_shutdown s w
  /\ releases (master_fd s) (events (cleanup s sh w))
     = release_count (master_fd s) w
  /\ forallb is_shutdown_event (events (cleanup s sh w)) = true
  /\ (restore_floor s <= restores (events (cleanup s sh w)))%nat
  /\ (restores (events (cleanup s sh w))
      <= invocations sh * restore_floor s)%nat.
Proof.
  induction sh as [a | a p h IH]; intros w.
  - destruct (cleanup_quiet s a w) as (Hr & Hf & Hrel & Hres & Hev).
    rewrite Hr, Hf, Hrel, Hres, Hev. simpl. repeat split; lia.
  - destruct s as [old m pid], a as [tm wt kl], w as [fds t].
    simpl cleanup. simpl in IH.
    destruct tm as [[]|?], wt as [?|?], kl as [[]|?], old as [old|],
             t as [t|];
      destruct (mem m fds) eqn:Hm; destruct p;
      repeat first
        [ progress eval_py
        | rewrite Hm
        | rewrite mem_remove
        | match goal with
          | |- context [cleanup ?s ?h ?W] =>
              let Hr := fresh "Hr" in
              let Hf := fresh "Hf" in
              let Hrel := fresh "Hrel" in
              let Hev := fresh "Hev" in
              let Hlo := fresh "Hlo" in
              let Hhi := fresh "Hhi" in
              destruct (IH W) as (Hr & Hf & Hrel & Hev & Hlo & Hhi);
              destruct (cleanup s h W) as [r f ev];
              cbv [after_shutdown] in Hf;
              simpl in Hr, Hf, Hrel, Hev, Hlo, Hhi; subst r f
          end ];
      (split; [reflexivity|]);
      (split;
       [rewrite ?remove_remove_eq, ?(remove_absent _ _ Hm); reflexivity|]);
      (split;
       [ rewrite ?releases_app, ?Hrel; unfold releases, release_count; simpl;
         rewrite ?Z.eqb_refl, ?Hm, ?mem_remove; reflexivity |]);
      (split;
       [ rewrite ?forallb_app, ?Hev; reflexivity
       | rewrite ?restores_app; unfold restore_floor, restores in *;
         simpl in *; lia ]).
Qed.

Lemma cleanup_run (s : Session) (sh : schedule) (w : World) :
  cleanup s sh w =
  Run (Exc (SystemExit 0)) (after_shutdown s w) (events (cleanup s sh w)).
Proof.
  destruct (cleanup_spec s sh w) as (Hr & Hf & _).
  rewrite (run_eta (cleanup s sh w)) at 1. rewrite Hr, Hf. reflexivity.
Qed.

Lemma cleanup_then {B} (s : Session) (sh : schedule) (f : unit -> M B)
      (w : World) :
  bind (cleanup s sh) f w =
  Run (Exc (SystemExit 0)) (after_shutdown s w) (events (cleanup s sh w)).
Proof. apply bind_exc. apply cleanup_run. Qed.

(** ** One iteration of the relay loop *)

Lemma select_run (s : Session) (sh : schedule) (t : tick) (w : World)
      (rfds : list fd) :
  select_select rfds select_timeout (cleanup s sh) t w =
  match t_signal t, t_select t with
  | Some _, _ =>
      Run (Exc (SystemExit 0)) (after_shutdown s w)
          (EvSelect rfds select_timeout :: events (cleanup s sh w))
  | None, Returns rlist => Run (Val rlist) w [EvSelect rfds select_timeout]
  | None, Raises e =>
      Run (Exc (Exception e)) w [EvSelect rfds select_timeout]
  end.
Proof.
  unfold select_select.
  rewrite (bind_val _ _ w w tt [EvSelect rfds select_timeout])
    by reflexivity.
  destruct (t_signal t) as [sg|].
  - rewrite cleanup_then. reflexivity.
  - destruct (t_select t); reflexivity.
Qed.

Lemma forward_output_run (s : Session) (t : tick) (w : World) :
  exists out, output_events (master_fd s) out
    /\ (forward_output s t w = Run (Val tt) w out
        \/ exists e, forward_output s t w = Run (Exc (Exception e)) w out).
Proof.
  unfold forward_output, try_except, bind, os_read, os_write, bind, emit,
    answer, pass, ret.
  destruct (t_master_read t) as [[|b data]|[]]; simpl;
    try (eexists; split; [apply out_read | eauto]; fail).
  destruct (t_stdout_write t) as [n|[]]; simpl;
    eexists; (split; [apply out_forward | eauto]).
Qed.

Lemma forward_input_eof (s : Session) (sh : schedule) (t : tick) (w : World) :
  t_stdin_read t = Returns [] ->
  forward_input s sh t w = extend [EvRead stdin_fileno 1024] (cleanup s sh w).
Proof.
  intros Heof. unfold forward_input.
  assert (Hbody :
    (data <- os_read stdin_fileno 1024 (t_stdin_read t) ;;
     if truthy_bytes data then
       _ <- os_write (master_fd s) data (t_master_write t) ;; ret tt
     else cleanup s sh) w
    = Run (Exc (SystemExit 0)) (after_shutdown s w)
          ([EvRead stdin_fileno 1024] ++ events (cleanup s sh w))).
  { rewrite (bind_val (os_read stdin_fileno 1024 (t_stdin_read t)) _
                      w w [] [EvRead stdin_fileno 1024]).
    - simpl. rewrite (cleanup_run s sh w) at 1. reflexivity.
    - unfold os_read. rewrite Heof. reflexivity. }
  rewrite (try_passed _ _ _ _ _ _ _ Hbody) by reflexivity.
  rewrite (cleanup_run s sh w) at 2. reflexivity.
Qed.

Lemma forward_input_run (s : Session) (sh : schedule) (t : tick) (w : World) :
  exists inp, input_events (master_fd s) inp
    /\ ((forward_input s sh t w = Run (Val tt) w inp
         /\ t_stdin_read t <> Returns [])
        \/ (exists e, forward_input s sh t w = Run (Exc (Exception e)) w inp)
        \/ (t_stdin_read t = Returns []
            /\ forward_input s sh t w = extend inp (cleanup s sh w))).
Proof.
  destruct (t_stdin_read t) as [[|b data]|e] eqn:Hread.
  - exists [EvRead stdin_fileno 1024]. split; [apply in_read|].
    right; right. split; [reflexivity | apply forward_input_eof, Hread].
  - unfold forward_input, try_except, bind, os_read, os_write, bind, emit,
      answer, pass, ret. rewrite Hread. simpl.
    destruct (t_master_write t) as [n|[]]; simpl;
      eexists; (split; [apply in_forward|]);
      first [ left; split; [reflexivity | discriminate]
            | right; left; eexists; reflexivity ].
  - unfold forward_input, try_except, bind, os_read, os_write, bind, emit,
      answer, pass, ret. rewrite Hread.
    destruct e; simpl;
      eexists; (split; [apply in_read|]);
      first [ left; split; [reflexivity | discriminate]
            | right; left; eexists; reflexivity ].
Qed.

Lemma check_exited_run (s : Session) (sh : schedule) (t : tick) (w : World) :
  check_exited s sh t w =
  match t_poll t with
  | Returns None => Run (Val tt) w [EvPoll]
  | Returns (Some _) => extend [EvPoll] (cleanup s sh w)
  | Raises e => Run (Exc (Exception e)) w [EvPoll]
  end.
Proof.
  unfold check_exited, proc_poll.
  destruct (t_poll t) as [[rc|]|e].
  - rewrite (bind_val _ _ w w (Some rc) [EvPoll]) by reflexivity.
    reflexivity.
  - reflexivity.
  - reflexivity.
Qed.

Lemma output_stage_run (s : Session) (t : tick) (w : World)
      (rlist : list fd) :
  exists out, output_events (master_fd s) out
    /\ ((if mem (master_fd s) rlist then forward_output s t else pass) w
        = Run (Val tt) w out
        \/ exists e,
            (if mem (master_fd s) rlist then forward_output s t else pass) w
            = Run (Exc (Exception e)) w out).
Proof.
  destruct (mem (master_fd s) rlist).
  - apply forward_output_run.
  - exists []. split; [apply out_idle | left; reflexivity].
Qed.

Lemma input_stage_run (s : Session) (sh : schedule) (t : tick) (w : World)
      (rlist : list fd) :
  exists inp, input_events (master_fd s) inp
    /\ (((if mem stdin_fileno rlist then forward_input s sh t else pass) w
         = Run (Val tt) w inp
         /\ (mem stdin_fileno rlist = false \/ t_stdin_read t <> Returns []))
        \/ (exists e,
             (if mem stdin_fileno rlist then forward_input s sh t else pass) w
             = Run (Exc (Exception e)) w inp)
        \/ (mem stdin_fileno rlist = true
            /\ t_stdin_read t = Returns []
            /\ (if mem stdin_fileno rlist then forward_input s sh t
                else pass) w
               = extend inp (cleanup s sh w))).
Proof.
  destruct (mem stdin_fileno rlist).
  - destruct (forward_input_run s sh t w)
      as (inp & Hinp & [[Hrun Hne] | [[e Hrun] | [Heof Hrun]]]);
      exists inp; (split; [exact Hinp|]); eauto 6.
  - exists []. split; [apply in_idle | left; split; [reflexivity | auto]].
Qed.

Lemma shutdown_events (s : Session) (sh : schedule) (w : World) :
  forallb is_shutdown_event (events (cleanup s sh w)) = true.
Proof. apply cleanup_spec. Qed.

Lemma extend_cleanup (s : Session) (sh : schedule) (w : World)
      (evs : list event) :
  extend evs (cleanup s sh w) =
  Run (Exc (SystemExit 0)) (after_shutdown s w)
      (evs ++ events (cleanup s sh w)).
Proof. rewrite (cleanup_run s sh w) at 1. reflexivity. Qed.

Lemma iteration_shuts (s : Session) (sh : schedule) (t : tick) (w : World)
      (evs : list event) :
  iteration_ends s sh t w
    (Run (Exc (SystemExit 0)) (after_shutdown s w)
         (evs ++ events (cleanup s sh w))).
Proof. rewrite <- extend_cleanup. apply it_shuts. Qed.

(** Every iteration is a bounded [select] followed by the output branch,
    the input branch and the exit check, in this order; it continues only
    when none of the three triggers of a shutdown fired. *)
Lemma relay_iteration_run (s : Session) (sh : schedule) (t : tick)
      (w : World) :
  exists out inp ext,
    output_events (master_fd s) out
    /\ input_events (master_fd s) inp
    /\ exit_events ext
    /\ events (relay_iteration s sh t w)
       = EvSelect [master_fd s; stdin_fileno] select_timeout
           :: out ++ inp ++ ext
    /\ iteration_ends s sh t w (relay_iteration s sh t w).
Proof.
  unfold relay_iteration.
  pose proof (select_run s sh t w [master_fd s; stdin_fileno]) as Hsel.
  destruct (t_signal t) as [sg|] eqn:Hsig.
  { (* a signal interrupts the wait *)
    rewrite (bind_exc _ _ _ _ _ _ Hsel).
    exists [], [], (events (cleanup s sh w)).
    repeat split; try constructor.
    - apply shutdown_events.
    - apply (iteration_shuts s sh t w [EvSelect _ _]). }
  destruct (t_select t) as [rlist|e] eqn:Hrl.
  2: { rewrite (bind_exc _ _ _ _ _ _ Hsel).
       exists [], [], []. repeat split; try constructor; reflexivity. }
  rewrite (bind_val _ _ _ _ _ _ Hsel).
  destruct (output_stage_run s t w rlist) as (out & Hout & [Ho | [e Ho]]).
  2: { rewrite (bind_exc _ _ _ _ _ _ Ho).
       exists out, [], []. repeat split; try constructor; try assumption.
       all: unfold extend; simpl; rewrite ?app_nil_r; reflexivity. }
  rewrite (bind_val _ _ _ _ _ _ Ho).
  destruct (input_stage_run s sh t w rlist)
    as (inp & Hinp & [[Hi Hne] | [[e Hi] | (Hin & Heof & Hi)]]).
  - rewrite (bind_val _ _ _ _ _ _ Hi), check_exited_run.
    destruct (t_poll t) as [[rc|]|e] eqn:Hpoll.
    + exists out, inp, (EvPoll :: events (cleanup s sh w)).
      repeat split; try assumption.
      * apply exit_polled, shutdown_events.
      * rewrite !extend_extend. apply it_shuts.
    + exists out, inp, [EvPoll].
      repeat split; try assumption.
      * apply exit_polled. reflexivity.
      * apply it_continues; try assumption.
        intros (rl & Hrl' & Hmem & Hrd).
        assert (rl = rlist) by congruence. subst rl.
        destruct Hne; congruence.
    + exists out, inp, [EvPoll].
      repeat split; try assumption.
      * apply exit_polled. reflexivity.
      * apply it_raises.
  - rewrite (bind_exc _ _ _ _ _ _ Hi).
    exists out, inp, []. repeat split; try constructor; try assumption.
    all: unfold extend; simpl; rewrite ?app_nil_r; reflexivity.
  - rewrite extend_cleanup in Hi. rewrite (bind_exc _ _ _ _ _ _ Hi).
    exists out, inp, (events (cleanup s sh w)).
    repeat split; try assumption.
    + apply exit_not_reached, shutdown_events.
    + unfold extend; simpl. rewrite app_assoc.
      apply (iteration_shuts s sh t w (EvSelect _ _ :: out ++ inp)).
Qed.

(** ** The relay loop *)

(** The loop leaves the resources alone: it either waits for more, raises
    an [Exception], or shuts down. *)
Lemma relay_run (s : Session) (sh : schedule) (ticks : list tick) :
  forall w : World,
    (exists evs, relay s sh ticks w = Run More w evs)
    \/ (exists e evs, relay s sh ticks w = Run (Exc (Exception e)) w evs)
    \/ (exists evs, relay s sh ticks w = extend evs (cleanup s sh w)).
Proof.
  induction ticks as [|t ts IH]; intros w; simpl.
  - left. exists []. reflexivity.
  - destruct (relay_iteration_run s sh t w)
      as (out & inp & ext & _ & _ & _ & _ & Hends).
    inversion Hends as [evs Hsig Heof Hpoll Hrun | e evs Hrun | evs Hrun];
      symmetry in Hrun.
    + rewrite (bind_val _ _ _ _ _ _ Hrun).
      destruct (IH w) as [[ev2 H2] | [[e [ev2 H2]] | [ev2 H2]]]; rewrite H2.
      * left. eexists. reflexivity.
      * right; left. do 2 eexists. reflexivity.
      * right; right. rewrite extend_extend. eexists. reflexivity.
    + rewrite (bind_exc _ _ _ _ _ _ Hrun).
      right; left. do 2 eexists. reflexivity.
    + rewrite extend_cleanup in Hrun. rewrite (bind_exc _ _ _ _ _ _ Hrun).
      right; right. exists evs. rewrite extend_cleanup. reflexivity.
Qed.

Lemma relay_waiting (s : Session) (sh : schedule) (ticks : list tick)
      (w w1 : World) (evs : list event) :
  relay s sh ticks w = Run More w1 evs -> w1 = w.
Proof.
  intros H.
  destruct (relay_run s sh ticks w) as [[ev2 H2] | [[e [ev2 H2]] | [ev2 H2]]].
  - congruence.
  - congruence.
  - rewrite extend_cleanup in H2. congruence.
Qed.

(** Ticks that leave the loop waiting can be followed by more ticks. *)
Lemma relay_app (s : Session) (sh : schedule) (pre post : list tick) :
  forall (w w1 : World) (ev1 : list event),
    relay s sh pre w = Run More w1 ev1 ->
    relay s sh (pre ++ post) w = extend ev1 (relay s sh post w1).
Proof.
  induction pre as [|t ts IH]; intros w w1 ev1 H; simpl in *.
  - inversion H; subst. rewrite extend_nil. reflexivity.
  - destruct (relay_iteration s sh t w) as [[[]|e|] wt evt] eqn:Hit.
    + rewrite (bind_val _ _ _ _ _ _ Hit) in H.
      rewrite (bind_val _ _ _ _ _ _ Hit).
      destruct (relay s sh ts wt) as [r2 w2 ev2] eqn:H2.
      unfold extend in H. simpl in H. inversion H; subst.
      rewrite (IH _ _ _ H2), extend_extend. reflexivity.
    + rewrite (bind_exc _ _ _ _ _ _ Hit) in H. discriminate.
    + (* an iteration never leaves the loop waiting *)
      exfalso.
      destruct (relay_iteration_run s sh t w)
        as (_ & _ & _ & _ & _ & _ & _ & Hends).
      rewrite Hit in Hends. inversion Hends as [| |evs Hrun].
      destruct (cleanup_spec s sh w) as (Hr & _). congruence.
Qed.

Lemma relay_loop_waiting (s : Session) (sh : schedule) (ticks : list tick)
      (w w1 : World) (evs : list event) :
  relay s sh ticks w = Run More w1 evs ->
  relay_loop s sh ticks w = Run More w1 evs.
Proof. intros H. unfold relay_loop. apply try_more, H. Qed.

Lemma relay_loop_caught (s : Session) (sh : schedule) (ticks : list tick)
      (w w1 : World) (e : exn) (evs : list event) :
  relay s sh ticks w = Run (Exc e) w1 evs ->
  is_Exception e = true ->
  relay_loop s sh ticks w = extend evs (cleanup s sh w1).
Proof.
  intros H He. unfold relay_loop.
  rewrite (try_caught _ _ _ _ _ _ _ H He). reflexivity.
Qed.

Lemma relay_loop_exit (s : Session) (sh : schedule) (ticks : list tick)
      (w w1 : World) (n : Z) (evs : list event) :
  relay s sh ticks w = Run (Exc (SystemExit n)) w1 evs ->
  relay_loop s sh ticks w = Run (Exc (SystemExit n)) w1 evs.
Proof.
  intros H. unfold relay_loop.
  apply (try_passed _ _ _ _ _ _ _ H). reflexivity.
Qed.

(** The loop of lines 69-100 either waits for more or shuts down. *)
Lemma relay_loop_run (s : Session) (sh : schedule) (ticks : list tick)
      (w : World) :
  (exists evs, relay_loop s sh ticks w = Run More w evs)
  \/ (exists evs, relay_loop s sh ticks w = extend evs (cleanup s sh w)).
Proof.
  destruct (relay_run s sh ticks w) as [[ev H] | [[e [ev H]] | [ev H]]].
  - left. exists ev. apply relay_loop_waiting, H.
  - right. exists ev. apply (relay_loop_caught _ _ _ _ _ _ _ H). reflexivity.
  - right. exists ev. rewrite extend_cleanup in *.
    apply relay_loop_exit, H.
Qed.

(** An iteration in which a trigger fires is the last one. *)
Lemma relay_loop_triggered (s : Session) (sh : schedule) (t : tick)
      (post : list tick) (w : World) :
  signalled t \/ stdin_eof t \/ child_exited t ->
  exists evs,
    relay_loop s sh (t :: post) w = extend evs (cleanup s sh w)
    /\ relay_loop s sh [t] w = extend evs (cleanup s sh w)
    /\ exists rest,
        evs = EvSelect [master_fd s; stdin_fileno] select_timeout :: rest.
Proof.
  intros Htrig.
  destruct (relay_iteration_run s sh t w)
    as (out & inp & ext & _ & _ & _ & Hev & Hends).
  inversion Hends as [evs Hsig Heof Hpoll Hrun | e evs Hrun | evs Hrun];
    symmetry in Hrun.
  - exfalso. destruct Htrig as [Hs | [He | [rc Hc]]].
    + apply Hs, Hsig.
    + apply Heof, He.
    + congruence.
  - rewrite Hrun in Hev. simpl in Hev. subst evs.
    eexists. split; [|split].
    + apply relay_loop_caught with (e := Exception e); [|reflexivity].
      simpl. apply bind_exc, Hrun.
    + apply relay_loop_caught with (e := Exception e); [|reflexivity].
      simpl. apply bind_exc, Hrun.
    + eexists. reflexivity.
  - rewrite extend_cleanup in Hrun. rewrite Hrun in Hev. simpl in Hev.
    destruct evs as [|ev0 evs]; simpl in Hev.
    + exfalso.
      pose proof (shutdown_events s sh w) as Hsd. rewrite Hev in Hsd.
      discriminate.
    + injection Hev as -> Hev.
      eexists. split; [|split].
      * rewrite extend_cleanup. apply relay_loop_exit.
        simpl. apply bind_exc, Hrun.
      * rewrite extend_cleanup. apply relay_loop_exit.
        simpl. apply bind_exc, Hrun.
      * eexists. reflexivity.
Qed.

Lemma relay_loop_app (s : Session) (sh : schedule) (pre post : list tick)
      (w w1 : World) (ev1 : list event) :
  relay s sh pre w = Run More w1 ev1 ->
  relay_loop s sh (pre ++ post) w = extend ev1 (relay_loop s sh post w1).
Proof.
  intros H. unfold relay_loop, try_except.
  rewrite (relay_app s sh pre post w w1 ev1 H).
  destruct (relay s sh post w1) as [[[]|e|] w2 ev2]; try reflexivity.
  unfold extend; simpl.
  destruct (is_Exception e); [|reflexivity].
  destruct (cleanup s sh w2) as [r3 w3 ev3]. simpl.
  rewrite app_assoc. reflexivity.
Qed.

(** ** Start-up *)

Lemma tcgetattr_run (w : World) :
  termios_tcgetattr stdin_fileno w =
  match tty w with
  | Some a => Run (Val a) w [EvTcgetattr stdin_fileno]
  | None => Run (Exc (Exception TermiosError)) w [EvTcgetattr stdin_fileno]
  end.
Proof.
  unfold termios_tcgetattr, bind, emit. destruct (tty w); reflexivity.
Qed.

(** Lines 24-28 never fail: [old_settings] is what the terminal has, or
    [None]. *)
Lemma capture_run (w : World) :
  try_except (a <- termios_tcgetattr stdin_fileno ;; ret (Some a))
             bare_except (fun _ => ret None) w
  = Run (Val (tty w)) w [EvTcgetattr stdin_fileno].
Proof.
  unfold try_except, bind at 1. rewrite tcgetattr_run.
  destruct (tty w); reflexivity.
Qed.

(** The run of lines 20-44 when the pty is opened and the child starts. *)
Lemma startup_spawned (e : env) (w : World) (m sl : fd) (pid : Z) :
  (2 <= List.length (e_argv e))%nat ->
  e_openpty e = Returns (m, sl) ->
  e_popen e = Returns pid ->
  startup e w =
  Run (Val (mkSession (tty w) m pid))
      (mkWorld (remove Z.eq_dec sl (sl :: m :: open_fds w)) (tty w))
      [EvTcgetattr stdin_fileno; EvOpenpty;
       EvPopen (skipn 1 (e_argv e)) sl sl sl true os_setsid (e_environ e);
       EvClose sl true].
Proof.
  intros Hargv Hpty Hpopen.
  unfold startup. rewrite (argv_tail _ Hargv), Hpty, Hpopen.
  rewrite (bind_val _ _ _ _ _ _ (capture_run w)).
  unfold bind, pty_openpty, subprocess_Popen, os_close, bind, emit, answer,
    ret; cbn - [mem remove].
  rewrite mem_head. reflexivity.
Qed.

(** The run of lines 20-44 when [Popen] raises. *)
Lemma startup_spawn_failure (e : env) (w : World) (m sl : fd)
      (err : exception) :
  (2 <= List.length (e_argv e))%nat ->
  e_openpty e = Returns (m, sl) ->
  e_popen e = Raises err ->
  startup e w =
  Run (Exc (Exception err))
      (mkWorld (sl :: m :: open_fds w) (tty w))
      [EvTcgetattr stdin_fileno; EvOpenpty;
       EvPopen (skipn 1 (e_argv e)) sl sl sl true os_setsid (e_environ e)].
Proof.
  intros Hargv Hpty Hpopen.
  unfold startup. rewrite (argv_tail _ Hargv), Hpty, Hpopen.
  rewrite (bind_val _ _ _ _ _ _ (capture_run w)).
  reflexivity.
Qed.

Lemma main_with_command (e : env) :
  (2 <= List.length (e_argv e))%nat ->
  main e =
  (s <- startup e ;;
   signal_signal SIGTERM ;;
   signal_signal SIGINT ;;
   relay_loop s (e_shutdown e) (e_ticks e)).
Proof.
  intros H. unfold main.
  destruct (List.length (e_argv e) <? 2)%nat eqn:E; [|reflexivity].
  apply Nat.ltb_lt in E. lia.
Qed.

(** After a successful start-up the program installs the two handlers and
    enters the relay loop. *)
Lemma main_started (e : env) (w w0 : World) (s : Session)
      (ev0 : list event) :
  (2 <= List.length (e_argv e))%nat ->
  startup e w = Run (Val s) w0 ev0 ->
  main e w =
  extend (ev0 ++ [EvSignal SIGTERM; EvSignal SIGINT])
         (relay_loop s (e_shutdown e) (e_ticks e) w0).
Proof.
  intros Hargv Hstart.
  rewrite (main_with_command e Hargv).
  rewrite (bind_val _ _ _ _ _ _ Hstart).
  unfold signal_signal.
  rewrite (bind_val _ _ w0 w0 tt [EvSignal SIGTERM]) by reflexivity.
  rewrite (bind_val _ _ w0 w0 tt [EvSignal SIGINT]) by reflexivity.
  rewrite !extend_extend, <- app_assoc. reflexivity.
Qed.

(** ** Concrete runs *)

(** [pty-wrapper.py true] on a terminal: one idle iteration, then the poll
    sees the exit of the child. *)
Example run_true_session :
  main Example.run_true Example.terminal
  = Run (Exc (SystemExit 0)) Example.terminal
        [EvTcgetattr 0; EvOpenpty;
         EvPopen ["true"%string] 4 4 4 true os_setsid
                 [("TERM"%string, "xterm"%string)];
         EvClose 4 true; EvSignal SIGTERM; EvSignal SIGINT;
         EvSelect [3; 0] 100; EvPoll;
         EvSelect [3; 0] 100; EvPoll;
         EvClose 3 true; EvTerminate; EvWait 1000;
         EvTcsetattr 0 TCSADRAIN Example.cooked].
Proof. reflexivity. Qed.

(** Bytes are forwarded in both directions, output first, and the loop
    goes on. *)
Example busy_iteration :
  relay_iteration Example.session (Quiet Example.obedient) Example.busy
                  Example.relaying
  = Run (Val tt) Example.relaying
        [EvSelect [3; 0] 100;
         EvRead 3 4096; EvWrite 1 [Byte.x6f; Byte.x6b];
         EvRead 0 1024; EvWrite 3 [Byte.x6c; Byte.x73];
         EvPoll].
Proof. reflexivity. Qed.

(** A SIGTERM during the wait: the master is closed, the child stopped and
    the saved mode put back. *)
Example terminated_session :
  relay_loop Example.session (Quiet Example.obedient)
             [Example.busy; Example.terminated] Example.relaying
  = Run (Exc (SystemExit 0)) (mkWorld [0; 1; 2] (Some Example.cooked))
        [EvSelect [3; 0] 100;
         EvRead 3 4096; EvWrite 1 [Byte.x6f; Byte.x6b];
         EvRead 0 1024; EvWrite 3 [Byte.x6c; Byte.x73];
         EvPoll;
         EvSelect [3; 0] 100;
         EvClose 3 true; EvTerminate; EvWait 1000;
         EvTcsetattr 0 TCSADRAIN Example.cooked].
Proof. reflexivity. Qed.

(** The child ignores SIGTERM: the wait times out and it is killed. *)
Example stubborn_child :
  events (cleanup Example.session
                  (Quiet (ProcAnswers (Returns tt) (Raises TimeoutExpired)
                                      (Returns tt)))
                  Example.relaying)
  = [EvClose 3 true; EvTerminate; EvWait 1000; EvKill;
     EvTcsetattr 0 TCSADRAIN Example.cooked].
Proof. reflexivity. Qed.

(** ** The properties of the specification *)

(** C1, as stated: a second invocation of the shutdown logic does no work
    and the attributes are restored at most once.  It fails: when a second
    signal arrives while the first [cleanup] waits for the child, the
    handler runs all the steps again; the master is closed once but a
    second close is attempted, and the attributes are restored twice. *)
Lemma cleanup_reentered_restores_twice :
  restores (events (cleanup Example.session Example.second_signal
                            Example.relaying)) = 2%nat
  /\ close_attempts Example.master
       (events (cleanup Example.session Example.second_signal
                        Example.relaying)) = 2%nat
  /\ ~ (restores (events (cleanup Example.session Example.second_signal
                                  Example.relaying)) <= 1)%nat.
Proof.
  assert (H : restores (events (cleanup Example.session Example.second_signal
                                        Example.relaying)) = 2%nat)
    by reflexivity.
  split; [exact H | split; [reflexivity | rewrite H; lia]].
Qed.

(** C1, amended: however often [cleanup] is re-entered by a signal while it
    runs, it does not crash and ends, with [sys.exit(0)], in the resources
    of a single invocation: the open master is released exactly once (later
    closes find it closed and the error is swallowed).  There is no
    first-invocation guard: an invocation entered again starts the steps
    again, so captured attributes are restored at least once and at most
    once per invocation. *)
Theorem cleanup_reentry_same_end_state
        (s : Session) (sh : schedule) (a : proc_answers) (w : World) :
  In (master_fd s) (open_fds w) ->
  result (cleanup s sh w) = Exc (SystemExit 0)
  /\ final (cleanup s sh w) = final (cleanup s (Quiet a) w)
  /\ ~ In (master_fd s) (open_fds (final (cleanup s sh w)))
  /\ releases (master_fd s) (events (cleanup s sh w)) = 1%nat
  /\ (match old_settings s with Some _ => 1 | None => 0 end
      <= restores (events (cleanup s sh w)))%nat
  /\ (restores (events (cleanup s sh w)) <= invocations sh)%nat.
Proof.
  intros Hopen.
  destruct (cleanup_spec s sh w) as (Hr & Hf & Hrel & _ & Hlo & Hhi).
  destruct (cleanup_spec s (Quiet a) w) as (_ & Hfq & _).
  rewrite restore_floor_captured in Hlo, Hhi.
  repeat split.
  - exact Hr.
  - congruence.
  - rewrite Hf. apply after_shutdown_closed.
  - rewrite Hrel. unfold release_count.
    apply mem_In in Hopen. rewrite Hopen. reflexivity.
  - exact Hlo.
  - destruct (old_settings s); lia.
Qed.

Lemma cleanup_reentry_same_end_state_witness :
  In (master_fd Example.session) (open_fds Example.relaying)
  /\ final (cleanup Example.session Example.second_signal Example.relaying)
     = final (cleanup Example.session (Quiet Example.obedient)
                      Example.relaying).
Proof.
  assert (H : In (master_fd Example.session) (open_fds Example.relaying))
    by (simpl; auto).
  split; [exact H|].
  apply (cleanup_reentry_same_end_state
           Example.session Example.second_signal Example.obedient
           Example.relaying H).
Defined.

(** C2, as stated: when the spawn fails both pty handles are released
    before the failure is reported.  It fails: [Popen] raising for a
    missing executable ends [main] with both handles open and no close
    attempted. *)
Lemma spawn_failure_releases_nothing :
  result (main Example.missing_executable Example.terminal)
  = Exc (Exception (OSError 2))
  /\ In Example.master
        (open_fds (final (main Example.missing_executable Example.terminal)))
  /\ In Example.slave
        (open_fds (final (main Example.missing_executable Example.terminal)))
  /\ close_attempts Example.master
       (events (main Example.missing_executable Example.terminal)) = 0%nat
  /\ close_attempts Example.slave
       (events (main Example.missing_executable Example.terminal)) = 0%nat.
Proof. simpl. repeat split; auto. Qed.

(** C2, amended: when [Popen] raises, the exception leaves [main]
    uncaught: the program ends with a traceback and status 1 right after
    the spawn attempt, without entering the relay loop or [cleanup], and
    closes neither handle itself; both are still open at that point. *)
Theorem spawn_failure_is_fatal
        (e : env) (w : World) (m sl : fd) (err : exception) :
  (2 <= List.length (e_argv e))%nat ->
  e_openpty e = Returns (m, sl) ->
  e_popen e = Raises err ->
  main e w =
  Run (Exc (Exception err))
      (mkWorld (sl :: m :: open_fds w) (tty w))
      [EvTcgetattr stdin_fileno; EvOpenpty;
       EvPopen (skipn 1 (e_argv e)) sl sl sl true os_setsid (e_environ e)]
  /\ exit_status (result (main e w)) = Some 1
  /\ In m (open_fds (final (main e w)))
  /\ In sl (open_fds (final (main e w))).
Proof.
  intros Hargv Hpty Hpopen.
  assert (Hmain : main e w =
    Run (Exc (Exception err)) (mkWorld (sl :: m :: open_fds w) (tty w))
      [EvTcgetattr stdin_fileno; EvOpenpty;
       EvPopen (skipn 1 (e_argv e)) sl sl sl true os_setsid (e_environ e)]).
  { rewrite (main_with_command e Hargv).
    apply bind_exc, (startup_spawn_failure e w m sl err Hargv Hpty Hpopen). }
  rewrite Hmain. repeat split; simpl; auto.
Qed.

Lemma spawn_failure_is_fatal_witness :
  (2 <= List.length (e_argv Example.missing_executable))%nat
  /\ e_openpty Example.missing_executable
     = Returns (Example.master, Example.slave)
  /\ e_popen Example.missing_executable = Raises (OSError 2)
  /\ exit_status (result (main Example.missing_executable Example.terminal))
     = Some 1.
Proof.
  assert (Hargv : (2 <= List.length (e_argv Example.missing_executable))%nat)
    by (simpl; lia).
  split; [exact Hargv | split; [reflexivity | split; [reflexivity|]]].
  apply (spawn_failure_is_fatal
           Example.missing_executable Example.terminal
           Example.master Example.slave (OSError 2) Hargv);
    reflexivity.
Defined.

(** C3: with no command on the command line the program prints the usage
    message on the error stream and exits with status 1; that print is its
    only action and no resource changes. *)
Theorem usage_error_before_allocation (e : env) (w : World) :
  (List.length (e_argv e) < 2)%nat ->
  main e w = Run (Exc (SystemExit 1)) w [EvPrintStderr usage]
  /\ exit_status (result (main e w)) = Some 1.
Proof.
  intros Hargv.
  assert (Hmain : main e w = Run (Exc (SystemExit 1)) w [EvPrintStderr usage]).
  { unfold main. apply Nat.ltb_lt in Hargv. rewrite Hargv. reflexivity. }
  rewrite Hmain. split; reflexivity.
Qed.

Lemma usage_error_before_allocation_witness :
  (List.length (e_argv Example.no_command) < 2)%nat
  /\ main Example.no_command Example.terminal
     = Run (Exc (SystemExit 1)) Example.terminal [EvPrintStderr usage].
Proof.
  assert (Hargv : (List.length (e_argv Example.no_command) < 2)%nat)
    by (simpl; lia).
  split; [exact Hargv|].
  apply (usage_error_before_allocation
           Example.no_command Example.terminal Hargv).
Defined.

(** C4: when the poll of an iteration reports that the child has exited,
    whatever its exit code, the loop ends in that very iteration (one
    [select] bounded by 100 ms), the poll being followed at once by
    [cleanup], and the whole program exits with status 0. *)
Theorem child_exit_ends_program
        (e : env) (w w0 w1 : World) (s : Session) (ev0 ev1 : list event)
        (pre post : list tick) (t : tick) (rc : Z) :
  (2 <= List.length (e_argv e))%nat ->
  startup e w = Run (Val s) w0 ev0 ->
  e_ticks e = pre ++ t :: post ->
  relay s (e_shutdown e) pre w0 = Run More w1 ev1 ->
  t_poll t = Returns (Some rc) ->
  result (main e w) = Exc (SystemExit 0)
  /\ exit_status (result (main e w)) = Some 0
  /\ relay_loop s (e_shutdown e) (e_ticks e) w0
     = extend ev1 (relay_loop s (e_shutdown e) [t] w1)
  /\ (exists rest,
        events (relay_loop s (e_shutdown e) [t] w1)
        = EvSelect [master_fd s; stdin_fileno] 100 :: rest)
  /\ (forall w',
        check_exited s (e_shutdown e) t w'
        = extend [EvPoll] (cleanup s (e_shutdown e) w')).
Proof.
  intros Hargv Hstart Hticks Hpre Hpoll.
  set (sh := e_shutdown e) in *.
  assert (Htrig : signalled t \/ stdin_eof t \/ child_exited t)
    by (right; right; exists rc; exact Hpoll).
  destruct (relay_loop_triggered s sh t post w1 Htrig)
    as (evs & Hall & Hone & rest & Hevs).
  assert (Hloop : relay_loop s sh (e_ticks e) w0
                  = extend ev1 (relay_loop s sh [t] w1)).
  { rewrite Hticks, (relay_loop_app s sh pre (t :: post) w0 w1 ev1 Hpre).
    rewrite Hall, Hone. reflexivity. }
  assert (Hres : result (main e w) = Exc (SystemExit 0)).
  { rewrite (main_started e w w0 s ev0 Hargv Hstart). fold sh.
    rewrite Hloop, Hone, !extend_extend, extend_cleanup. reflexivity. }
  split; [exact Hres|].
  split; [rewrite Hres; reflexivity|].
  split; [exact Hloop|].
  split.
  - rewrite Hone, extend_cleanup, Hevs. simpl. eexists. reflexivity.
  - intros w'. rewrite check_exited_run, Hpoll. reflexivity.
Qed.

Lemma child_exit_ends_program_witness :
  (2 <= List.length (e_argv Example.run_true))%nat
  /\ relay Example.session (e_shutdown Example.run_true) [Example.idle]
           Example.relaying
     = Run More Example.relaying
           [EvSelect [Example.master; stdin_fileno] 100; EvPoll]
  /\ t_poll Example.child_gone = Returns (Some 7)
  /\ exit_status (result (main Example.run_true Example.terminal)) = Some 0.
Proof.
  assert (Hargv : (2 <= List.length (e_argv Example.run_true))%nat)
    by (simpl; lia).
  assert (Hpre : relay (mkSession (Some Example.cooked) Example.master 4242)
                       (e_shutdown Example.run_true) [Example.idle]
                       (mkWorld [3; 0; 1; 2] (Some Example.cooked))
                 = Run More (mkWorld [3; 0; 1; 2] (Some Example.cooked))
                       [EvSelect [Example.master; stdin_fileno] 100; EvPoll])
    by reflexivity.
  split; [exact Hargv | split; [reflexivity | split; [reflexivity|]]].
  apply (child_exit_ends_program
           Example.run_true Example.terminal _ _ _ _ _
           [Example.idle] [] Example.child_gone 7
           Hargv eq_refl eq_refl Hpre eq_refl).
Defined.

(** C5: a zero-byte read from standard input is followed at once by
    [cleanup]; it is neither an error nor ignored.  The loop ends in the
    iteration in which [select] reports standard input readable and the
    read returns nothing, and the exit status is 0. *)
Theorem stdin_eof_shuts_down
        (s : Session) (sh : schedule) (pre post : list tick) (t : tick)
        (w w1 : World) (ev1 : list event) (rlist : list fd) :
  relay s sh pre w = Run More w1 ev1 ->
  t_select t = Returns rlist ->
  mem stdin_fileno rlist = true ->
  t_stdin_read t = Returns [] ->
  (forall w',
      forward_input s sh t w'
      = extend [EvRead stdin_fileno 1024] (cleanup s sh w'))
  /\ relay_loop s sh (pre ++ t :: post) w
     = extend ev1 (relay_loop s sh [t] w1)
  /\ (exists rest,
        events (relay_loop s sh [t] w1)
        = EvSelect [master_fd s; stdin_fileno] 100 :: rest)
  /\ result (relay_loop s sh (pre ++ t :: post) w) = Exc (SystemExit 0)
  /\ exit_status (result (relay_loop s sh (pre ++ t :: post) w)) = Some 0.
Proof.
  intros Hpre Hsel Hmem Heof.
  assert (Htrig : signalled t \/ stdin_eof t \/ child_exited t)
    by (right; left; exists rlist; auto).
  destruct (relay_loop_triggered s sh t post w1 Htrig)
    as (evs & Hall & Hone & rest & Hevs).
  assert (Hloop : relay_loop s sh (pre ++ t :: post) w
                  = extend ev1 (relay_loop s sh [t] w1)).
  { rewrite (relay_loop_app s sh pre (t :: post) w w1 ev1 Hpre).
    rewrite Hall, Hone. reflexivity. }
  assert (Hres : result (relay_loop s sh (pre ++ t :: post) w)
                 = Exc (SystemExit 0)).
  { rewrite Hloop, Hone, extend_extend, extend_cleanup. reflexivity. }
  split; [intros w'; apply forward_input_eof, Heof|].
  split; [exact Hloop|].
  split; [rewrite Hone, extend_cleanup, Hevs; simpl; eexists; reflexivity|].
  split; [exact Hres | rewrite Hres; reflexivity].
Qed.

Lemma stdin_eof_shuts_down_witness :
  relay Example.session (Quiet Example.obedient) [Example.idle]
        Example.relaying
  = Run More Example.relaying
        [EvSelect [Example.master; stdin_fileno] 100; EvPoll]
  /\ mem stdin_fileno [stdin_fileno] = true
  /\ exit_status
       (result (relay_loop Example.session (Quiet Example.obedient)
                           ([Example.idle] ++ Example.input_closed :: [])
                           Example.relaying))
     = Some 0.
Proof.
  assert (Hpre : relay Example.session (Quiet Example.obedient)
                       [Example.idle] Example.relaying
                 = Run More Example.relaying
                       [EvSelect [Example.master; stdin_fileno] 100; EvPoll])
    by reflexivity.
  split; [exact Hpre | split; [reflexivity|]].
  apply (stdin_eof_shuts_down
           Example.session (Quiet Example.obedient) [Example.idle] []
           Example.input_closed Example.relaying Example.relaying _
           [stdin_fileno] Hpre eq_refl eq_refl eq_refl).
Defined.

(** C6: start-up does not depend on capturing the terminal attributes:
    when [tcgetattr] raises, [old_settings] stays [None] and the pty is
    opened and the child spawned all the same.  At shutdown a restore is
    made if and only if attributes were captured. *)
Theorem capture_failure_is_not_fatal
        (e : env) (w w' : World) (m sl : fd) (pid : Z) (sh : schedule) :
  (2 <= List.length (e_argv e))%nat ->
  e_openpty e = Returns (m, sl) ->
  e_popen e = Returns pid ->
  exists (s : Session) (w0 : World) (ev0 : list event),
    startup e w = Run (Val s) w0 ev0
    /\ old_settings s = tty w
    /\ (tty w = None ->
        result (termios_tcgetattr stdin_fileno w)
        = Exc (Exception TermiosError)
        /\ old_settings s = None)
    /\ ((0 < restores (events (cleanup s sh w')))%nat <-> tty w <> None).
Proof.
  intros Hargv Hpty Hpopen.
  rewrite (startup_spawned e w m sl pid Hargv Hpty Hpopen).
  do 3 eexists. split; [reflexivity|]. simpl.
  split; [reflexivity|]. split.
  - intros Hnone. rewrite tcgetattr_run, Hnone. split; reflexivity.
  - match goal with
    | |- context [cleanup ?s sh w'] =>
        destruct (cleanup_spec s sh w') as (_ & _ & _ & _ & Hlo & Hhi)
    end.
    rewrite restore_floor_captured in Hlo, Hhi. simpl in Hlo, Hhi.
    destruct (tty w) as [a|]; split; intros H;
      first [ discriminate | lia | congruence ].
Qed.

Lemma capture_failure_is_not_fatal_witness :
  (2 <= List.length (e_argv Example.run_true))%nat
  /\ exists (s : Session) (w0 : World) (ev0 : list event),
      startup Example.run_true Example.pipe = Run (Val s) w0 ev0
      /\ old_settings s = tty Example.pipe
      /\ (tty Example.pipe = None ->
          result (termios_tcgetattr stdin_fileno Example.pipe)
          = Exc (Exception TermiosError)
          /\ old_settings s = None)
      /\ ((0 < restores (events (cleanup s (Quiet Example.obedient)
                                         Example.relaying)))%nat
          <-> tty Example.pipe <> None).
Proof.
  assert (Hargv : (2 <= List.length (e_argv Example.run_true))%nat)
    by (simpl; lia).
  split; [exact Hargv|].
  apply (capture_failure_is_not_fatal
           Example.run_true Example.pipe Example.relaying
           Example.master Example.slave 4242 (Quiet Example.obedient)
           Hargv eq_refl eq_refl).
Defined.

(** C7: the child is spawned with the slave as its standard input, output
    and error, with [os.setsid] run in the child before the command and the
    parent's environment passed as it is; the very next call of the parent
    closes its copy of the slave. *)
Theorem child_attached_to_slave
        (e : env) (w : World) (m sl : fd) (pid : Z) :
  (2 <= List.length (e_argv e))%nat ->
  e_openpty e = Returns (m, sl) ->
  e_popen e = Returns pid ->
  events (startup e w)
  = [EvTcgetattr stdin_fileno; EvOpenpty;
     EvPopen (skipn 1 (e_argv e)) sl sl sl true os_setsid (e_environ e);
     EvClose sl true]
  /\ ~ In sl (open_fds (final (startup e w)))
  /\ exists rest, events (main e w) = events (startup e w) ++ rest.
Proof.
  intros Hargv Hpty Hpopen.
  pose proof (startup_spawned e w m sl pid Hargv Hpty Hpopen) as Hstart.
  rewrite (main_started e w _ _ _ Hargv Hstart), Hstart.
  cbn - [remove].
  split; [reflexivity|]. split.
  - apply remove_In.
  - eexists. reflexivity.
Qed.

Lemma child_attached_to_slave_witness :
  (2 <= List.length (e_argv Example.run_true))%nat
  /\ events (startup Example.run_true Example.terminal)
     = [EvTcgetattr stdin_fileno; EvOpenpty;
        EvPopen (skipn 1 (e_argv Example.run_true))
                Example.slave Example.slave Example.slave true os_setsid
                (e_environ Example.run_true);
        EvClose Example.slave true].
Proof.
  assert (Hargv : (2 <= List.length (e_argv Example.run_true))%nat)
    by (simpl; lia).
  split; [exact Hargv|].
  apply (child_attached_to_slave
           Example.run_true Example.terminal Example.master Example.slave
           4242 Hargv eq_refl eq_refl).
Defined.

(** C9: an [Exception] that leaves the body of the loop is caught by the
    handler of line 99, which runs [cleanup]: the master is closed, captured
    attributes are put back, and the program exits with status 0. *)
Theorem exception_in_loop_shuts_down
        (s : Session) (sh : schedule) (ticks : list tick) (w w1 : World)
        (e : exn) (evs : list event) :
  relay s sh ticks w = Run (Exc e) w1 evs ->
  is_Exception e = true ->
  relay_loop s sh ticks w = extend evs (cleanup s sh w1)
  /\ result (relay_loop s sh ticks w) = Exc (SystemExit 0)
  /\ exit_status (result (relay_loop s sh ticks w)) = Some 0
  /\ ~ In (master_fd s) (open_fds (final (relay_loop s sh ticks w)))
  /\ (forall old,
        old_settings s = Some old -> tty w1 <> None ->
        tty (final (relay_loop s sh ticks w)) = Some old).
Proof.
  intros Hrun He.
  rewrite (relay_loop_caught s sh ticks w w1 e evs Hrun He).
  split; [reflexivity|].
  rewrite extend_cleanup. simpl.
  repeat split.
  - apply remove_In.
  - intros old Hold Htty. rewrite Hold.
    destruct (tty w1); [reflexivity | congruence].
Qed.

Lemma exception_in_loop_shuts_down_witness :
  relay Example.session (Quiet Example.obedient) [Example.select_fails]
        Example.relaying
  = Run (Exc (Exception ValueError)) Example.relaying
        [EvSelect [Example.master; stdin_fileno] 100]
  /\ is_Exception (Exception ValueError) = true
  /\ exit_status
       (result (relay_loop Example.session (Quiet Example.obedient)
                           [Example.select_fails] Example.relaying))
     = Some 0.
Proof.
  assert (Hrun : relay Example.session (Quiet Example.obedient)
                       [Example.select_fails] Example.relaying
                 = Run (Exc (Exception ValueError)) Example.relaying
                       [EvSelect [Example.master; stdin_fileno] 100])
    by reflexivity.
  split; [exact Hrun | split; [reflexivity|]].
  apply (exception_in_loop_shuts_down
           Example.session (Quiet Example.obedient) [Example.select_fails]
           Example.relaying Example.relaying (Exception ValueError) _
           Hrun eq_refl).
Defined.

(** C10: a zero-byte read from the master writes nothing and triggers
    nothing: the output branch ends normally after the read.  With nothing
    to read on standard input the iteration goes on to the poll, and the
    loop continues unless the poll reports the exit of the child, which is
    what starts [cleanup]. *)
Theorem master_eof_is_ignored
        (s : Session) (sh : schedule) (t : tick) (w : World)
        (rlist : list fd) :
  t_signal t = None ->
  t_select t = Returns rlist ->
  mem (master_fd s) rlist = true ->
  mem stdin_fileno rlist = false ->
  t_master_read t = Returns [] ->
  forward_output s t w = Run (Val tt) w [EvRead (master_fd s) 4096]
  /\ (t_poll t = Returns None ->
      relay_iteration s sh t w
      = Run (Val tt) w
            [EvSelect [master_fd s; stdin_fileno] 100;
             EvRead (master_fd s) 4096; EvPoll])
  /\ (forall rc,
        t_poll t = Returns (Some rc) ->
        relay_iteration s sh t w
        = extend [EvSelect [master_fd s; stdin_fileno] 100;
                  EvRead (master_fd s) 4096; EvPoll]
                 (cleanup s sh w)).
Proof.
  intros Hsig Hsel Hm Hin Hread.
  assert (Hout : forward_output s t w
                 = Run (Val tt) w [EvRead (master_fd s) 4096]).
  { unfold forward_output, try_except, bind, os_read, bind, emit, answer.
    rewrite Hread. reflexivity. }
  assert (Hiter : relay_iteration s sh t w
                  = extend [EvSelect [master_fd s; stdin_fileno] 100;
                            EvRead (master_fd s) 4096]
                           (check_exited s sh t w)).
  { unfold relay_iteration.
    pose proof (select_run s sh t w [master_fd s; stdin_fileno]) as Hs.
    rewrite Hsig, Hsel in Hs.
    rewrite (bind_val _ _ _ _ _ _ Hs), Hm, Hin.
    rewrite (bind_val _ _ _ _ _ _ Hout).
    rewrite (bind_val pass _ w w tt []) by reflexivity.
    rewrite !extend_extend. reflexivity. }
  split; [exact Hout|]. split.
  - intros Hpoll. rewrite Hiter, check_exited_run, Hpoll. reflexivity.
  - intros rc Hpoll.
    rewrite Hiter, check_exited_run, Hpoll, extend_extend. reflexivity.
Qed.

Lemma master_eof_is_ignored_witness :
  mem (master_fd Example.session) [Example.master] = true
  /\ forward_output Example.session Example.master_eof Example.relaying
     = Run (Val tt) Example.relaying [EvRead Example.master 4096].
Proof.
  split; [reflexivity|].
  apply (master_eof_is_ignored
           Example.session (Quiet Example.obedient) Example.master_eof
           Example.relaying [Example.master]
           eq_refl eq_refl eq_refl eq_refl eq_refl).
Defined.

(** ** Exact runs of the branches *)

Lemma forward_output_exact (s : Session) (t : tick) (w : World) :
  forward_output s t w = Run (output_result t) w (output_calls s t).
Proof.
  unfold forward_output, output_result, output_calls, swallow, try_except,
    bind, os_read, os_write, bind, emit, answer, pass, ret.
  destruct (t_master_read t) as [[|b data]|[]]; simpl; try reflexivity.
  destruct (t_stdout_write t) as [n|[]]; reflexivity.
Qed.

Lemma forward_input_exact (s : Session) (sh : schedule) (t : tick)
      (w : World) :
  at_eof (t_stdin_read t) = false ->
  forward_input s sh t w = Run (input_result t) w (input_calls s t).
Proof.
  unfold forward_input, input_result, input_calls, swallow, try_except,
    bind, os_read, os_write, bind, emit, answer, pass, ret.
  destruct (t_stdin_read t) as [[|b data]|[]]; simpl;
    intros Heof; try discriminate; try reflexivity.
  destruct (t_master_write t) as [n|[]]; reflexivity.
Qed.

Lemma swallow_cases (e : exception) :
  swallow e = Val tt \/ swallow e = Exc (Exception e).
Proof. unfold swallow. destruct (is_OSError (Exception e)); auto. Qed.

Lemma output_result_cases (t : tick) :
  output_result t = Val tt \/ exists e, output_result t = Exc (Exception e).
Proof.
  unfold output_result.
  destruct (t_master_read t) as [[|b data]|e]; auto.
  - destruct (t_stdout_write t) as [n|e]; auto.
    destruct (swallow_cases e); eauto.
  - destruct (swallow_cases e); eauto.
Qed.

Lemma input_result_cases (t : tick) :
  input_result t = Val tt \/ exists e, input_result t = Exc (Exception e).
Proof.
  unfold input_result.
  destruct (t_stdin_read t) as [[|b data]|e]; auto.
  - destruct (t_master_write t) as [n|e]; auto.
    destruct (swallow_cases e); eauto.
  - destruct (swallow_cases e); eauto.
Qed.

(** The calls of any iteration are an initial part of [iteration_calls],
    followed by those of [cleanup] when it shuts down; an iteration that
    continues has made them all. *)
Lemma relay_iteration_calls (s : Session) (sh : schedule) (t : tick)
      (w : World) :
  exists pre suf,
    iteration_calls s t = pre ++ suf
    /\ ((suf = [] /\ relay_iteration s sh t w = Run (Val tt) w pre)
        \/ (exists e, relay_iteration s sh t w
                      = Run (Exc (Exception e)) w pre)
        \/ relay_iteration s sh t w = extend pre (cleanup s sh w)).
Proof.
  unfold relay_iteration, iteration_calls, ready.
  pose proof (select_run s sh t w [master_fd s; stdin_fileno]) as Hsel.
  set (sel := EvSelect [master_fd s; stdin_fileno] select_timeout) in *.
  destruct (t_signal t) as [sg|] eqn:Hsig.
  { rewrite (bind_exc _ _ _ _ _ _ Hsel).
    exists [sel]. eexists. split; [reflexivity|].
    right; right. rewrite extend_cleanup. reflexivity. }
  destruct (t_select t) as [rlist|e] eqn:Hrl.
  2: { rewrite (bind_exc _ _ _ _ _ _ Hsel).
       exists [sel]. eexists. split; [reflexivity|].
       right; left. eexists. reflexivity. }
  rewrite (bind_val _ _ _ _ _ _ Hsel).
  set (out := if mem (master_fd s) rlist then output_calls s t else []).
  assert (Hout :
    (if mem (master_fd s) rlist then forward_output s t else pass) w
    = Run (Val tt) w out
    \/ exists e,
        (if mem (master_fd s) rlist then forward_output s t else pass) w
        = Run (Exc (Exception e)) w out).
  { subst out. destruct (mem (master_fd s) rlist); [|left; reflexivity].
    rewrite forward_output_exact.
    destruct (output_result_cases t) as [H | [e H]]; rewrite H; eauto. }
  destruct Hout as [Ho | [e Ho]].
  2: { rewrite (bind_exc _ _ _ _ _ _ Ho).
       exists (sel :: out). eexists. split; [reflexivity|].
       right; left. exists e. same_run. }
  rewrite (bind_val _ _ _ _ _ _ Ho).
  destruct (mem stdin_fileno rlist) eqn:Hin; cbv iota.
  - set (inp := input_calls s t).
    destruct (at_eof (t_stdin_read t)) eqn:Heof.
    + (* end of file on standard input *)
      assert (Hrd : t_stdin_read t = Returns []).
      { destruct (t_stdin_read t) as [[|b d]|e]; try discriminate.
        reflexivity. }
      assert (Hinp : inp = [EvRead stdin_fileno 1024]).
      { subst inp. unfold input_calls. rewrite Hrd. reflexivity. }
      pose proof (forward_input_eof s sh t w Hrd) as Hi.
      rewrite extend_cleanup in Hi.
      rewrite (bind_exc _ _ _ _ _ _ Hi).
      exists (sel :: out ++ inp), [EvPoll].
      split; [simpl; rewrite <- app_assoc; reflexivity|].
      right; right. rewrite extend_cleanup, Hinp. same_run.
    + pose proof (forward_input_exact s sh t w Heof) as Hi. fold inp in Hi.
      destruct (input_result_cases t) as [Hr | [e Hr]]; rewrite Hr in Hi.
      * rewrite (bind_val _ _ _ _ _ _ Hi).
        rewrite check_exited_run.
        exists (sel :: out ++ inp ++ [EvPoll]), [].
        split; [rewrite app_nil_r; reflexivity|].
        destruct (t_poll t) as [[rc|]|e].
        -- right; right. rewrite !extend_cleanup. same_run.
        -- left. split; [reflexivity | same_run].
        -- right; left. exists e. same_run.
      * rewrite (bind_exc _ _ _ _ _ _ Hi).
        exists (sel :: out ++ inp), [EvPoll].
        split; [simpl; rewrite <- app_assoc; reflexivity|].
        right; left. exists e. same_run.
  - rewrite (bind_val pass _ w w tt []) by reflexivity.
    rewrite check_exited_run. simpl.
    exists (sel :: out ++ [EvPoll]), [].
    split; [rewrite app_nil_r; reflexivity|].
    destruct (t_poll t) as [[rc|]|e].
    + right; right. rewrite !extend_cleanup. same_run.
    + left. split; [reflexivity | same_run].
    + right; left. exists e. same_run.
Qed.

(** ** The order of the calls of an iteration *)

(** The input branch and the exit check, after the output branch has ended
    normally. *)
Lemma input_then_poll (s : Session) (sh : schedule) (t : tick) (w : World)
      (rlist : list fd) :
  exists pre suf,
    (if mem stdin_fileno rlist then input_calls s t else []) ++ [EvPoll]
    = pre ++ suf
    /\ ((suf = []
         /\ ((if mem stdin_fileno rlist then forward_input s sh t else pass) ;;
             check_exited s sh t) w = Run (Val tt) w pre)
        \/ (exists e,
             ((if mem stdin_fileno rlist then forward_input s sh t
               else pass) ;;
              check_exited s sh t) w = Run (Exc (Exception e)) w pre)
        \/ ((if mem stdin_fileno rlist then forward_input s sh t else pass) ;;
            check_exited s sh t) w = extend pre (cleanup s sh w))
    /\ (exists rest,
          pre = (if mem stdin_fileno rlist then input_calls s t else [])
                ++ rest)
    /\ ((mem stdin_fileno rlist = false
         \/ (at_eof (t_stdin_read t) = false /\ input_result t = Val tt)) ->
        suf = []
        /\ ((if mem stdin_fileno rlist then forward_input s sh t else pass) ;;
            check_exited s sh t) w
           = match t_poll t with
             | Returns None => Run (Val tt) w pre
             | Returns (Some _) => extend pre (cleanup s sh w)
             | Raises e => Run (Exc (Exception e)) w pre
             end).
Proof.
  destruct (mem stdin_fileno rlist) eqn:Hin.
  - set (inp := input_calls s t).
    destruct (at_eof (t_stdin_read t)) eqn:Heof.
    + (* end of file on standard input *)
      assert (Hrd : t_stdin_read t = Returns []).
      { destruct (t_stdin_read t) as [[|b d]|e]; try discriminate.
        reflexivity. }
      pose proof (forward_input_eof s sh t w Hrd) as Hi.
      assert (Hinp : inp = [EvRead stdin_fileno 1024]).
      { subst inp. unfold input_calls. rewrite Hrd. reflexivity. }
      rewrite <- Hinp, extend_cleanup in Hi.
      exists inp, [EvPoll]. split; [reflexivity|].
      split; [right; right; rewrite (bind_exc _ _ _ _ _ _ Hi),
                                    extend_cleanup; reflexivity|].
      split; [exists []; rewrite app_nil_r; reflexivity|].
      intros [H | [H _]]; discriminate.
    + pose proof (forward_input_exact s sh t w Heof) as Hi. fold inp in Hi.
      destruct (input_result_cases t) as [Hr | [e Hr]]; rewrite Hr in Hi.
      * exists (inp ++ [EvPoll]), [].
        split; [rewrite app_nil_r; reflexivity|].
        rewrite (bind_val _ _ _ _ _ _ Hi), check_exited_run.
        split; [|split; [exists [EvPoll]; reflexivity|]].
        -- destruct (t_poll t) as [[rc|]|e].
           ++ right; right. rewrite extend_extend. reflexivity.
           ++ left. split; reflexivity.
           ++ right; left. exists e. reflexivity.
        -- intros _. split; [reflexivity|].
           destruct (t_poll t) as [[rc|]|e];
             rewrite ?extend_extend; reflexivity.
      * exists inp, [EvPoll]. split; [reflexivity|].
        split; [right; left; exists e; apply bind_exc, Hi|].
        split; [exists []; rewrite app_nil_r; reflexivity|].
        intros [H | [_ H]]; [discriminate | congruence].
  - exists [EvPoll], []. split; [reflexivity|].
    rewrite (bind_val pass _ w w tt []) by reflexivity.
    rewrite check_exited_run, extend_nil.
    split; [|split; [exists [EvPoll]; reflexivity|]].
    + destruct (t_poll t) as [[rc|]|e].
      * right; right. reflexivity.
      * left. split; reflexivity.
      * right; left. exists e. reflexivity.
    + intros _. split; [reflexivity|].
      destruct (t_poll t) as [[rc|]|e]; reflexivity.
Qed.

(** C8: every iteration starts with a [select] on the master and standard
    input with a timeout of 100 ms.  Its calls are an initial part of: the
    [select], the calls of the output branch when [select] reported the
    master (master to standard output), the calls of the input branch when
    it reported standard input (standard input to master), the exit poll,
    in this order, followed by those of [cleanup] when the iteration shuts
    down.  The output branch is handled whenever [select] returns, the input
    branch next unless the output branch raised, and the poll last unless
    the input branch raised or met end of file; an iteration that continues
    has made all these calls.  Once the poll is made its answer decides:
    the loop continues when it is [None] and [cleanup] runs when it is an
    exit code. *)
Theorem iteration_order (s : Session) (sh : schedule) (t : tick) (w : World) :
  exists pre suf : list event,
    iteration_calls s t = pre ++ suf
    /\ ((suf = [] /\ relay_iteration s sh t w = Run (Val tt) w pre)
        \/ (exists e,
             relay_iteration s sh t w = Run (Exc (Exception e)) w pre)
        \/ relay_iteration s sh t w = extend pre (cleanup s sh w))
    /\ (exists rest,
          pre = EvSelect [master_fd s; stdin_fileno] 100 :: rest)
    /\ (t_signal t = None ->
        raises (t_select t) = false ->
        (exists rest,
            pre = EvSelect [master_fd s; stdin_fileno] 100
                    :: (if ready (master_fd s) t then output_calls s t
                        else [])
                    ++ rest)
        /\ (ready (master_fd s) t = false \/ output_result t = Val tt ->
            (exists rest,
                pre = EvSelect [master_fd s; stdin_fileno] 100
                        :: (if ready (master_fd s) t then output_calls s t
                            else [])
                        ++ (if ready stdin_fileno t then input_calls s t
                            else [])
                        ++ rest)
            /\ (ready stdin_fileno t = false
                \/ (at_eof (t_stdin_read t) = false
                    /\ input_result t = Val tt) ->
                suf = []
                /\ relay_iteration s sh t w
                   = match t_poll t with
                     | Returns None => Run (Val tt) w pre
                     | Returns (Some _) => extend pre (cleanup s sh w)
                     | Raises e => Run (Exc (Exception e)) w pre
                     end))).
Proof.
  unfold relay_iteration, iteration_calls, ready.
  pose proof (select_run s sh t w [master_fd s; stdin_fileno]) as Hsel.
  change 100 with select_timeout.
  set (sel := EvSelect [master_fd s; stdin_fileno] select_timeout) in *.
  destruct (t_signal t) as [sg|] eqn:Hsig.
  { rewrite (bind_exc _ _ _ _ _ _ Hsel).
    exists [sel]. eexists. split; [reflexivity|].
    split; [right; right; rewrite extend_cleanup; reflexivity|].
    split; [exists []; reflexivity|]. discriminate. }
  destruct (t_select t) as [rlist|e] eqn:Hrl.
  2: { rewrite (bind_exc _ _ _ _ _ _ Hsel).
       exists [sel]. eexists. split; [reflexivity|].
       split; [right; left; eexists; reflexivity|].
       split; [exists []; reflexivity|]. intros _ H. discriminate. }
  rewrite (bind_val _ _ _ _ _ _ Hsel).
  set (out := if mem (master_fd s) rlist then output_calls s t else []).
  assert (Hout :
    ((if mem (master_fd s) rlist then forward_output s t else pass) w
     = Run (Val tt) w out
     /\ (mem (master_fd s) rlist = false \/ output_result t = Val tt))
    \/ (exists e,
          (if mem (master_fd s) rlist then forward_output s t else pass) w
          = Run (Exc (Exception e)) w out
          /\ mem (master_fd s) rlist = true
          /\ output_result t = Exc (Exception e))).
  { subst out. destruct (mem (master_fd s) rlist); [|left; auto].
    rewrite forward_output_exact.
    destruct (output_result_cases t) as [H | [e H]]; rewrite H; eauto 6. }
  destruct Hout as [[Ho Hok] | (e & Ho & Hm & Hr)].
  - rewrite (bind_val _ _ _ _ _ _ Ho).
    destruct (input_then_poll s sh t w rlist)
      as (pre2 & suf2 & Hc & Hways & [rest Hpre2] & Hfull).
    exists (sel :: out ++ pre2), suf2.
    split; [simpl; rewrite <- app_assoc, <- Hc; reflexivity|].
    split.
    { destruct Hways as [[Hs H] | [[e H] | H]]; rewrite H.
      - left. split; [exact Hs|]. unfold extend. reflexivity.
      - right; left. exists e. unfold extend. reflexivity.
      - right; right. rewrite !extend_extend. reflexivity. }
    split; [eexists; reflexivity|].
    intros _ _. split; [exists pre2; reflexivity|].
    intros _. split; [exists rest; rewrite Hpre2; reflexivity|].
    intros Hcond. destruct (Hfull Hcond) as [Hsuf Hpoll].
    split; [exact Hsuf|]. rewrite Hpoll.
    destruct (t_poll t) as [[rc|]|e];
      rewrite ?extend_extend; reflexivity.
  - rewrite (bind_exc _ _ _ _ _ _ Ho).
    exists (sel :: out). eexists. split; [reflexivity|].
    split; [right; left; exists e; same_run|].
    split; [eexists; reflexivity|].
    intros _ _. split; [exists []; rewrite app_nil_r; reflexivity|].
    intros [H | H]; congruence.
Qed.

Lemma iteration_order_witness :
  t_signal Example.busy = None
  /\ raises (t_select Example.busy) = false
  /\ output_result Example.busy = Val tt
  /\ at_eof (t_stdin_read Example.busy) = false
  /\ input_result Example.busy = Val tt
  /\ exists pre suf : list event,
      iteration_calls Example.session Example.busy = pre ++ suf
      /\ suf = []
      /\ relay_iteration Example.session (Quiet Example.obedient)
                         Example.busy Example.relaying
         = Run (Val tt) Example.relaying pre
      /\ exists rest,
          pre = EvSelect [master_fd Example.session; stdin_fileno] 100
                  :: output_calls Example.session Example.busy
                  ++ input_calls Example.session Example.busy
                  ++ rest.
Proof.
  repeat (split; [reflexivity|]).
  destruct (iteration_order Example.session (Quiet Example.obedient)
                            Example.busy Example.relaying)
    as (pre & suf & Hcalls & _ & _ & Hstages).
  destruct (Hstages eq_refl eq_refl) as (_ & Hnext).
  destruct (Hnext (or_intror eq_refl)) as (Hinput & Hpoll).
  exists pre, suf.
  destruct (Hpoll (or_intror (conj eq_refl eq_refl))) as (Hsuf & Hrun).
  split; [exact Hcalls|].
  split; [exact Hsuf|].
  split; [exact Hrun | exact Hinput].
Defined.


(** ** Exact runs of the loop *)

Lemma relay_calls_cons (s : Session) (t : tick) (ts : list tick) :
  relay_calls s (t :: ts) = iteration_calls s t ++ relay_calls s ts.
Proof. reflexivity. Qed.

Lemma relay_exact (s : Session) (sh : schedule) (ticks : list tick) :
  forall w : World,
  exists pre suf,
    relay_calls s ticks = pre ++ suf
    /\ ((suf = [] /\ relay s sh ticks w = Run More w pre)
        \/ (exists e, relay s sh ticks w = Run (Exc (Exception e)) w pre)
        \/ relay s sh ticks w = extend pre (cleanup s sh w)).
Proof.
  induction ticks as [|t ts IH]; intros w.
  - exists [], []. split; [reflexivity|]. left. split; reflexivity.
  - rewrite relay_calls_cons. cbn [relay].
    destruct (relay_iteration_calls s sh t w)
      as (pre1 & suf1 & Hcalls & [[Hsuf Hrun] | [[e Hrun] | Hrun]]).
    + subst suf1. rewrite app_nil_r in Hcalls.
      rewrite (bind_val _ _ _ _ _ _ Hrun), Hcalls.
      destruct (IH w)
        as (pre2 & suf2 & Hc2 & [[Hs2 H2] | [[e H2] | H2]]);
        rewrite H2, Hc2; exists (pre1 ++ pre2), suf2;
        (split; [rewrite app_assoc; reflexivity|]).
      * left. split; [exact Hs2 | reflexivity].
      * right; left. exists e. reflexivity.
      * right; right. rewrite extend_extend. reflexivity.
    + rewrite (bind_exc _ _ _ _ _ _ Hrun), Hcalls.
      exists pre1, (suf1 ++ relay_calls s ts).
      split; [rewrite app_assoc; reflexivity|].
      right; left. exists e. reflexivity.
    + rewrite extend_cleanup in Hrun.
      rewrite (bind_exc _ _ _ _ _ _ Hrun), Hcalls.
      exists pre1, (suf1 ++ relay_calls s ts).
      split; [rewrite app_assoc; reflexivity|].
      right; right. rewrite extend_cleanup. reflexivity.
Qed.

Lemma relay_loop_exact (s : Session) (sh : schedule) (ticks : list tick)
      (w : World) :
  exists pre suf,
    relay_calls s ticks = pre ++ suf
    /\ ((suf = [] /\ relay_loop s sh ticks w = Run More w pre)
        \/ relay_loop s sh ticks w = extend pre (cleanup s sh w)).
Proof.
  destruct (relay_exact s sh ticks w)
    as (pre & suf & Hc & [[Hs H] | [[e H] | H]]);
    exists pre, suf; (split; [exact Hc|]).
  - left. split; [exact Hs | apply relay_loop_waiting, H].
  - right. apply (relay_loop_caught _ _ _ _ _ _ _ H). reflexivity.
  - right. rewrite extend_cleanup in *. apply relay_loop_exit, H.
Qed.

Lemma relay_waiting_calls (s : Session) (sh : schedule) (ticks : list tick)
      (w w1 : World) (evs : list event) :
  relay s sh ticks w = Run More w1 evs ->
  evs = relay_calls s ticks.
Proof.
  intros H.
  destruct (relay_exact s sh ticks w)
    as (pre & suf & Hc & [[Hs H2] | [[e H2] | H2]]).
  - subst suf. rewrite app_nil_r in Hc. congruence.
  - congruence.
  - rewrite extend_cleanup in H2. congruence.
Qed.

(** ** Counting calls *)

Lemma count_app (p : event -> bool) (l1 l2 : list event) :
  count p (l1 ++ l2) = (count p l1 + count p l2)%nat.
Proof. unfold count. rewrite filter_app, length_app. reflexivity. Qed.

Lemma count_none (p q : event -> bool) (evs : list event) :
  (forall ev, q ev = true -> p ev = false) ->
  forallb q evs = true ->
  count p evs = 0%nat.
Proof.
  intros Hpq. induction evs as [|ev evs IH]; simpl; intros H.
  - reflexivity.
  - apply andb_true_iff in H. destruct H as [Hq Hrest].
    unfold count in *. simpl. rewrite (Hpq ev Hq). apply IH, Hrest.
Qed.

Lemma forallb_prefix (q : event -> bool) (pre suf : list event) :
  forallb q (pre ++ suf) = true -> forallb q pre = true.
Proof. rewrite forallb_app. intros H. apply andb_true_iff in H. tauto. Qed.

Lemma output_calls_relay (s : Session) (t : tick) :
  forallb is_relay_event (output_calls s t) = true.
Proof.
  unfold output_calls. destruct (t_master_read t) as [[|b d]|e]; reflexivity.
Qed.

Lemma input_calls_relay (s : Session) (t : tick) :
  forallb is_relay_event (input_calls s t) = true.
Proof.
  unfold input_calls. destruct (t_stdin_read t) as [[|b d]|e]; reflexivity.
Qed.

Lemma iteration_calls_relay (s : Session) (t : tick) :
  forallb is_relay_event (iteration_calls s t) = true.
Proof.
  unfold iteration_calls. cbn [forallb is_relay_event andb].
  rewrite !forallb_app.
  destruct (ready (master_fd s) t), (ready stdin_fileno t);
    rewrite ?output_calls_relay, ?input_calls_relay; reflexivity.
Qed.

Lemma relay_calls_relay (s : Session) (ticks : list tick) :
  forallb is_relay_event (relay_calls s ticks) = true.
Proof.
  induction ticks as [|t ts IH]; [reflexivity|].
  rewrite relay_calls_cons, forallb_app, iteration_calls_relay, IH.
  reflexivity.
Qed.

(** The calls of a loop are calls of the relay followed, when it has shut
    down, by those of [cleanup]. *)
Lemma relay_loop_events (s : Session) (sh : schedule) (ticks : list tick)
      (w : World) :
  exists pre,
    forallb is_relay_event pre = true
    /\ ((relay_loop s sh ticks w = Run More w pre)
        \/ relay_loop s sh ticks w = extend pre (cleanup s sh w)).
Proof.
  destruct (relay_loop_exact s sh ticks w)
    as (pre & suf & Hc & [[_ H] | H]);
    exists pre; (split; [|auto]);
    apply (forallb_prefix _ pre suf); rewrite <- Hc;
    apply relay_calls_relay.
Qed.

(** ** The runs of the whole program *)

Lemma startup_openpty_failure (e : env) (w : World) (err : exception) :
  e_openpty e = Raises err ->
  startup e w =
  Run (Exc (Exception err)) w [EvTcgetattr stdin_fileno; EvOpenpty].
Proof.
  intros Hpty. unfold startup. rewrite Hpty.
  rewrite (bind_val _ _ _ _ _ _ (capture_run w)).
  destruct w. reflexivity.
Qed.

(** The four ways [main] can go: no command, no pty, no child, or a
    session that reaches the relay loop. *)
Lemma main_run_cases (e : env) (w : World) :
  ((List.length (e_argv e) < 2)%nat
   /\ main e w = Run (Exc (SystemExit 1)) w [EvPrintStderr usage])
  \/ (exists err,
        e_openpty e = Raises err
        /\ main e w =
           Run (Exc (Exception err)) w [EvTcgetattr stdin_fileno; EvOpenpty])
  \/ (exists m sl err,
        e_openpty e = Returns (m, sl) /\ e_popen e = Raises err
        /\ main e w =
           Run (Exc (Exception err))
               (mkWorld (sl :: m :: open_fds w) (tty w))
               [EvTcgetattr stdin_fileno; EvOpenpty;
                EvPopen (skipn 1 (e_argv e)) sl sl sl true os_setsid
                        (e_environ e)])
  \/ (exists m sl pid,
        e_openpty e = Returns (m, sl) /\ e_popen e = Returns pid
        /\ main e w =
           extend [EvTcgetattr stdin_fileno; EvOpenpty;
                   EvPopen (skipn 1 (e_argv e)) sl sl sl true os_setsid
                           (e_environ e);
                   EvClose sl true; EvSignal SIGTERM; EvSignal SIGINT]
                  (relay_loop (mkSession (tty w) m pid) (e_shutdown e)
                              (e_ticks e)
                              (mkWorld
                                 (remove Z.eq_dec sl (sl :: m :: open_fds w))
                                 (tty w)))).
Proof.
  destruct (List.length (e_argv e) <? 2)%nat eqn:Hlen.
  { left. split; [apply Nat.ltb_lt, Hlen|].
    unfold main. rewrite Hlen. reflexivity. }
  apply Nat.ltb_ge in Hlen. right.
  destruct (e_openpty e) as [[m sl]|err] eqn:Hpty.
  2: { left. exists err. split; [reflexivity|].
       rewrite (main_with_command e Hlen).
       apply bind_exc, startup_openpty_failure, Hpty. }
  right.
  destruct (e_popen e) as [pid|err] eqn:Hpopen.
  - right. exists m, sl, pid. repeat split.
    rewrite (main_started e w _ _ _ Hlen
               (startup_spawned e w m sl pid Hlen Hpty Hpopen)).
    reflexivity.
  - left. exists m, sl, err. repeat split.
    rewrite (main_with_command e Hlen).
    apply bind_exc, (startup_spawn_failure e w m sl err Hlen Hpty Hpopen).
Qed.

Lemma cleanup_quiet_calls (s : Session) (a : proc_answers) (w : World) :
  events (cleanup s (Quiet a) w)
  = EvClose (master_fd s) (mem (master_fd s) (open_fds w))
      :: stop_calls a ++ restore_calls s.
Proof.
  destruct s as [old m pid], a as [tm wt kl], w as [fds t].
  unfold stop_calls, restore_calls. simpl.
  destruct (mem m fds) eqn:Hm;
    destruct tm as [[]|?], wt as [?|?], kl as [[]|?], old as [old|],
             t as [t|];
    eval_py; rewrite Hm; reflexivity.
Qed.

(** ** Further properties of the program *)

(** X1: when [pty.openpty] raises, the exception leaves [main] uncaught:
    the program ends with status 1 after the two calls made so far; no
    child is spawned, no handler installed and no resource changed. *)
Theorem openpty_failure_is_fatal (e : env) (w : World) (err : exception) :
  (2 <= List.length (e_argv e))%nat ->
  e_openpty e = Raises err ->
  main e w
  = Run (Exc (Exception err)) w [EvTcgetattr stdin_fileno; EvOpenpty]
  /\ exit_status (result (main e w)) = Some 1.
Proof.
  intros Hargv Hpty.
  assert (Hmain : main e w = Run (Exc (Exception err)) w
                               [EvTcgetattr stdin_fileno; EvOpenpty]).
  { rewrite (main_with_command e Hargv).
    apply bind_exc, startup_openpty_failure, Hpty. }
  rewrite Hmain. split; reflexivity.
Qed.

Lemma openpty_failure_is_fatal_witness :
  (2 <= List.length (e_argv Scenario.no_pty))%nat
  /\ e_openpty Scenario.no_pty = Raises (OSError 24)
  /\ main Scenario.no_pty Example.terminal
     = Run (Exc (Exception (OSError 24))) Example.terminal
           [EvTcgetattr stdin_fileno; EvOpenpty].
Proof.
  assert (Hargv : (2 <= List.length (e_argv Scenario.no_pty))%nat)
    by (simpl; lia).
  split; [exact Hargv | split; [reflexivity|]].
  apply (openpty_failure_is_fatal Scenario.no_pty Example.terminal
                                  (OSError 24) Hargv eq_refl).
Defined.

(** X2: when SIGTERM and SIGINT are the only signals and arrive once the
    handlers are installed, the program is still running or its exit status
    is 0 or 1, whatever the calls return or raise: 1 exactly when start-up
    failed (no command, or [openpty] or [Popen] raised), 0 once a started
    session has ended.  The exit code of the child never becomes the exit
    status. *)
Theorem exit_status_is_zero_or_one (e : env) (w : World) :
  (exit_status (result (main e w)) = None
   \/ exit_status (result (main e w)) = Some 0
   \/ exit_status (result (main e w)) = Some 1)
  /\ (exit_status (result (main e w)) = Some 1
      <-> ((List.length (e_argv e) < 2)%nat
           \/ raises (e_openpty e) = true
           \/ raises (e_popen e) = true)).
Proof.
  destruct (Nat.ltb_spec (List.length (e_argv e)) 2) as [Hlt | Hge].
  { assert (H : main e w
                = Run (Exc (SystemExit 1)) w [EvPrintStderr usage]).
    { unfold main. apply Nat.ltb_lt in Hlt. rewrite Hlt. reflexivity. }
    rewrite H. simpl. split; [auto | split; auto]. }
  destruct (main_run_cases e w)
    as [[Hlt _] | [(err & Hpty & H) | [(m & sl & err & Hpty & Hpopen & H)
                                      | (m & sl & pid & Hpty & Hpopen & H)]]].
  - lia.
  - rewrite H, Hpty. simpl. split; [auto | split; auto].
  - rewrite H, Hpty, Hpopen. simpl. split; [auto | split; auto].
  - rewrite H, Hpty, Hpopen.
    match goal with
    | |- context [relay_loop ?s ?sh ?ticks ?w0] =>
        destruct (relay_loop_run s sh ticks w0) as [[evs Hl] | [evs Hl]];
        rewrite Hl; [|rewrite extend_cleanup]; simpl
    end.
    + split; [auto|]. split; [discriminate|].
      intros [Hlt | [Hr | Hr]]; [lia | discriminate | discriminate].
    + split; [auto|]. split; [discriminate|].
      intros [Hlt | [Hr | Hr]]; [lia | discriminate | discriminate].
Qed.

(** X3: the relay loop never returns and never lets an exception out:
    it is either still running, with the resources untouched, or it has
    ended in [sys.exit(0)] after a shutdown. *)
Theorem relay_loop_never_returns
        (s : Session) (sh : schedule) (ticks : list tick) (w : World) :
  (result (relay_loop s sh ticks w) = More
   /\ final (relay_loop s sh ticks w) = w)
  \/ (result (relay_loop s sh ticks w) = Exc (SystemExit 0)
      /\ final (relay_loop s sh ticks w) = after_shutdown s w).
Proof.
  destruct (relay_loop_run s sh ticks w) as [[evs H] | [evs H]]; rewrite H.
  - left. split; reflexivity.
  - right. rewrite extend_cleanup. split; reflexivity.
Qed.

(** X4: a SIGTERM or SIGINT that arrives while [select] waits ends the
    session at once: the handler runs [cleanup] and the iteration makes no
    other call; the program exits with status 0. *)
Theorem signal_during_select_shuts_down
        (s : Session) (sh : schedule) (pre post : list tick) (t : tick)
        (w w1 : World) (ev1 : list event) (sg : signum) :
  relay s sh pre w = Run More w1 ev1 ->
  t_signal t = Some sg ->
  relay_loop s sh (pre ++ t :: post) w
  = extend (ev1 ++ [EvSelect [master_fd s; stdin_fileno] 100])
           (cleanup s sh w)
  /\ result (relay_loop s sh (pre ++ t :: post) w) = Exc (SystemExit 0)
  /\ final (relay_loop s sh (pre ++ t :: post) w) = after_shutdown s w.
Proof.
  intros Hpre Hsig.
  pose proof (relay_waiting s sh pre w w1 ev1 Hpre) as Hw. subst w1.
  assert (Hit : relay_iteration s sh t w
                = Run (Exc (SystemExit 0)) (after_shutdown s w)
                      (EvSelect [master_fd s; stdin_fileno] 100
                         :: events (cleanup s sh w))).
  { unfold relay_iteration.
    pose proof (select_run s sh t w [master_fd s; stdin_fileno]) as Hsel.
    rewrite Hsig in Hsel. apply bind_exc, Hsel. }
  assert (Hloop : relay_loop s sh (pre ++ t :: post) w
                  = extend (ev1 ++ [EvSelect [master_fd s; stdin_fileno] 100])
                           (cleanup s sh w)).
  { rewrite (relay_loop_app s sh pre (t :: post) w w ev1 Hpre).
    rewrite (relay_loop_exit s sh (t :: post) w _ 0 _
               (bind_exc _ _ _ _ _ _ Hit)).
    rewrite extend_cleanup. unfold extend. simpl.
    rewrite <- app_assoc. reflexivity. }
  rewrite Hloop, extend_cleanup. repeat split.
Qed.

Lemma signal_during_select_shuts_down_witness :
  relay Example.session (Quiet Example.obedient) [Example.busy]
        Example.relaying
  = Run More Example.relaying
        (iteration_calls Example.session Example.busy)
  /\ t_signal Example.terminated = Some SIGTERM
  /\ final (relay_loop Example.session (Quiet Example.obedient)
                       ([Example.busy] ++ Example.terminated :: [])
                       Example.relaying)
     = after_shutdown Example.session Example.relaying.
Proof.
  assert (Hpre : relay Example.session (Quiet Example.obedient)
                       [Example.busy] Example.relaying
                 = Run More Example.relaying
                       (iteration_calls Example.session Example.busy))
    by reflexivity.
  split; [exact Hpre | split; [reflexivity|]].
  apply (signal_during_select_shuts_down
           Example.session (Quiet Example.obedient) [Example.busy] []
           Example.terminated Example.relaying Example.relaying _ SIGTERM
           Hpre eq_refl).
Defined.

(** X5: an undisturbed [cleanup] always makes its calls in the same order,
    each whatever the outcome of the one before: close the master (also
    when it is already closed), terminate the child, wait at most one
    second unless terminate raised, kill exactly when terminate or the wait
    raised, and restore the attributes last when they were captured. *)
Theorem cleanup_call_sequence (s : Session) (a : proc_answers) (w : World) :
  events (cleanup s (Quiet a) w)
  = EvClose (master_fd s) (mem (master_fd s) (open_fds w))
      :: stop_calls a ++ restore_calls s
  /\ existsb is_kill (events (cleanup s (Quiet a) w))
     = raises (a_terminate a) || raises (a_wait a).
Proof.
  rewrite cleanup_quiet_calls. split; [reflexivity|].
  unfold stop_calls, restore_calls.
  destruct (a_terminate a), (a_wait a), (old_settings s); reflexivity.
Qed.

Lemma shutdown_count_none (p : event -> bool) (s : Session) (sh : schedule)
      (w : World) :
  (forall ev, is_shutdown_event ev = true -> p ev = false) ->
  count p (events (cleanup s sh w)) = 0%nat.
Proof.
  intros Hp. apply (count_none p is_shutdown_event _ Hp), shutdown_events.
Qed.

Lemma pty_fds_closed (fds : list fd) (m sl : fd) :
  ~ In m fds -> ~ In sl fds ->
  remove Z.eq_dec m (remove Z.eq_dec sl (sl :: m :: fds)) = fds.
Proof.
  intros Hm Hsl. simpl.
  destruct (Z.eq_dec sl sl) as [_|Hne]; [|congruence].
  destruct (Z.eq_dec sl m) as [Heq | Hne].
  - subst m. rewrite !(notin_remove Z.eq_dec fds sl Hsl). reflexivity.
  - rewrite (notin_remove Z.eq_dec fds sl Hsl). simpl.
    destruct (Z.eq_dec m m) as [_|Hne']; [|congruence].
    apply (notin_remove Z.eq_dec fds m Hm).
Qed.

(** X6: a session that has ended leaves the process as it found it: the
    two descriptors of the pty are closed again and the terminal has the
    attributes it had when the program started. *)
Theorem session_leaves_resources_as_found
        (e : env) (w : World) (m sl : fd) (pid : Z) :
  (2 <= List.length (e_argv e))%nat ->
  e_openpty e = Returns (m, sl) ->
  e_popen e = Returns pid ->
  ~ In m (open_fds w) ->
  ~ In sl (open_fds w) ->
  result (main e w) <> More ->
  result (main e w) = Exc (SystemExit 0) /\ final (main e w) = w.
Proof.
  intros Hargv Hpty Hpopen Hm Hsl Hended.
  rewrite (main_started e w _ _ _ Hargv
             (startup_spawned e w m sl pid Hargv Hpty Hpopen)) in *.
  match goal with
  | |- context [relay_loop ?s ?sh ?ticks ?w0] =>
      destruct (relay_loop_run s sh ticks w0) as [[evs Hl] | [evs Hl]];
      rewrite Hl in *
  end.
  - exfalso. apply Hended. reflexivity.
  - rewrite extend_extend, extend_cleanup. split; [reflexivity|].
    cbn [final]. unfold after_shutdown.
    cbn [master_fd old_settings open_fds tty].
    rewrite (pty_fds_closed (open_fds w) m sl Hm Hsl).
    destruct w as [fds [t|]]; reflexivity.
Qed.

Lemma session_leaves_resources_as_found_witness :
  (2 <= List.length (e_argv Example.run_true))%nat
  /\ ~ In Example.master (open_fds Example.terminal)
  /\ ~ In Example.slave (open_fds Example.terminal)
  /\ result (main Example.run_true Example.terminal) <> More
  /\ final (main Example.run_true Example.terminal) = Example.terminal.
Proof.
  assert (Hargv : (2 <= List.length (e_argv Example.run_true))%nat)
    by (simpl; lia).
  assert (Hm : ~ In Example.master (open_fds Example.terminal))
    by (simpl; intros [H | [H | [H | H]]]; try discriminate; exact H).
  assert (Hsl : ~ In Example.slave (open_fds Example.terminal))
    by (simpl; intros [H | [H | [H | H]]]; try discriminate; exact H).
  assert (Hended : result (main Example.run_true Example.terminal) <> More)
    by (simpl; discriminate).
  split; [exact Hargv | split; [exact Hm | split; [exact Hsl |
    split; [exact Hended|]]]].
  apply (session_leaves_resources_as_found
           Example.run_true Example.terminal Example.master Example.slave
           4242 Hargv eq_refl eq_refl Hm Hsl Hended).
Defined.

(** *** What is forwarded *)

Lemma chunks_written_app (f : fd) (l1 l2 : list event) :
  chunks_written f (l1 ++ l2) = chunks_written f l1 ++ chunks_written f l2.
Proof.
  induction l1 as [|ev l1 IH]; simpl; [reflexivity|].
  destruct ev; try exact IH.
  destruct (Z.eqb f f0); simpl; rewrite IH; reflexivity.
Qed.

Lemma concat_truthy (l : list bytes) :
  List.concat (filter truthy_bytes l) = List.concat l.
Proof.
  induction l as [|b l IH]; simpl; [reflexivity|].
  destruct b; simpl; rewrite IH; reflexivity.
Qed.

Lemma iteration_output_chunks (s : Session) (t : tick) :
  master_fd s <> stdout_fileno ->
  chunks_written stdout_fileno (iteration_calls s t)
  = filter truthy_bytes [master_chunk s t].
Proof.
  intros Hne. apply Z.eqb_neq in Hne. rewrite Z.eqb_sym in Hne.
  unfold iteration_calls, master_chunk, output_calls, input_calls.
  cbn [chunks_written]. rewrite !chunks_written_app.
  destruct (ready (master_fd s) t), (ready stdin_fileno t);
    destruct (t_master_read t) as [[|b d]|e1];
    destruct (t_stdin_read t) as [[|b' d']|e2];
    cbn [chunks_written filter truthy_bytes app];
    rewrite ?Hne, ?Z.eqb_refl; reflexivity.
Qed.

Lemma iteration_input_chunks (s : Session) (t : tick) :
  master_fd s <> stdout_fileno ->
  chunks_written (master_fd s) (iteration_calls s t)
  = filter truthy_bytes [stdin_chunk t].
Proof.
  intros Hne. apply Z.eqb_neq in Hne.
  unfold iteration_calls, stdin_chunk, output_calls, input_calls.
  cbn [chunks_written]. rewrite !chunks_written_app.
  destruct (ready (master_fd s) t), (ready stdin_fileno t);
    destruct (t_master_read t) as [[|b d]|e1];
    destruct (t_stdin_read t) as [[|b' d']|e2];
    cbn [chunks_written filter truthy_bytes app];
    rewrite ?Hne, ?Z.eqb_refl; reflexivity.
Qed.

Lemma relay_calls_chunks (s : Session) (ticks : list tick) :
  master_fd s <> stdout_fileno ->
  chunks_written stdout_fileno (relay_calls s ticks)
  = filter truthy_bytes (map (master_chunk s) ticks)
  /\ chunks_written (master_fd s) (relay_calls s ticks)
     = filter truthy_bytes (map stdin_chunk ticks).
Proof.
  intros Hne. induction ticks as [|t ts [IHo IHi]]; [split; reflexivity|].
  rewrite relay_calls_cons, !chunks_written_app, IHo, IHi.
  rewrite (iteration_output_chunks s t Hne),
          (iteration_input_chunks s t Hne), <- !filter_app.
  split; reflexivity.
Qed.

(** X7: while the loop runs, what it passes to [os.write] on standard
    output is, call by call and in order, the non-empty chunks it read
    from the master, and what it passes to [os.write] on the master is the
    non-empty chunks it read from standard input: nothing is added,
    dropped, reordered or written twice, whatever the writes return. *)
Theorem bytes_forwarded_verbatim
        (s : Session) (sh : schedule) (ticks : list tick) (w w1 : World)
        (evs : list event) :
  master_fd s <> stdout_fileno ->
  relay s sh ticks w = Run More w1 evs ->
  chunks_written stdout_fileno evs
  = filter truthy_bytes (map (master_chunk s) ticks)
  /\ chunks_written (master_fd s) evs
     = filter truthy_bytes (map stdin_chunk ticks)
  /\ List.concat (chunks_written stdout_fileno evs)
     = List.concat (map (master_chunk s) ticks)
  /\ List.concat (chunks_written (master_fd s) evs)
     = List.concat (map stdin_chunk ticks).
Proof.
  intros Hne Hrun.
  rewrite (relay_waiting_calls s sh ticks w w1 evs Hrun).
  destruct (relay_calls_chunks s ticks Hne) as [Ho Hi].
  rewrite Ho, Hi, !concat_truthy. repeat split.
Qed.

Lemma bytes_forwarded_verbatim_witness :
  master_fd Example.session <> stdout_fileno
  /\ chunks_written stdout_fileno
       (relay_calls Example.session
                    [Example.busy; Scenario.typed; Example.busy])
     = [[Byte.x6f; Byte.x6b]; [Byte.x6f; Byte.x6b]]
  /\ chunks_written (master_fd Example.session)
       (relay_calls Example.session
                    [Example.busy; Scenario.typed; Example.busy])
     = [[Byte.x6c; Byte.x73]; [Byte.x6c; Byte.x73]; [Byte.x6c; Byte.x73]].
Proof.
  assert (Hne : master_fd Example.session <> stdout_fileno)
    by (simpl; discriminate).
  assert (Hrun : relay Example.session (Quiet Example.obedient)
                       [Example.busy; Scenario.typed; Example.busy]
                       Example.relaying
                 = Run More Example.relaying
                       (relay_calls Example.session
                          [Example.busy; Scenario.typed; Example.busy]))
    by reflexivity.
  split; [exact Hne|].
  destruct (bytes_forwarded_verbatim
              Example.session (Quiet Example.obedient)
              [Example.busy; Scenario.typed; Example.busy]
              Example.relaying Example.relaying _ Hne Hrun)
    as (Ho & Hi & _).
  split; [exact Ho | exact Hi].
Defined.

(** *** Errors that do not end the session *)

Lemma swallowed_result (e : exception) :
  is_OSError (Exception e) = true -> swallow e = Val tt.
Proof. intros H. unfold swallow. rewrite H. reflexivity. Qed.

Lemma output_result_swallowed (t : tick) :
  swallowed (t_master_read t) = true ->
  swallowed (t_stdout_write t) = true ->
  output_result t = Val tt.
Proof.
  unfold output_result, swallowed.
  destruct (t_master_read t) as [[|b d]|e1]; intros H1 H2;
    try reflexivity; try (apply swallowed_result, H1).
  destruct (t_stdout_write t) as [n|e2];
    [reflexivity | apply swallowed_result, H2].
Qed.

Lemma input_result_swallowed (t : tick) :
  swallowed (t_stdin_read t) = true ->
  swallowed (t_master_write t) = true ->
  input_result t = Val tt.
Proof.
  unfold input_result, swallowed.
  destruct (t_stdin_read t) as [[|b d]|e1]; intros H1 H2;
    try reflexivity; try (apply swallowed_result, H1).
  destruct (t_master_write t) as [n|e2];
    [reflexivity | apply swallowed_result, H2].
Qed.

Lemma survivable_iteration (s : Session) (sh : schedule) (t : tick)
      (w : World) :
  survivable t = true ->
  relay_iteration s sh t w = Run (Val tt) w (iteration_calls s t).
Proof.
  unfold survivable, relay_iteration, iteration_calls, ready.
  pose proof (select_run s sh t w [master_fd s; stdin_fileno]) as Hsel.
  destruct (t_signal t) as [sg|]; [discriminate|].
  destruct (t_select t) as [rlist|e]; [|discriminate].
  pose proof (check_exited_run s sh t w) as Hpoll.
  destruct (t_poll t) as [[rc|]|e]; try discriminate.
  intros Hs.
  apply andb_true_iff in Hs. destruct Hs as [Hs Heof].
  apply andb_true_iff in Hs. destruct Hs as [Hs Hmw].
  apply andb_true_iff in Hs. destruct Hs as [Hs Hsr].
  apply andb_true_iff in Hs. destruct Hs as [Hmr Hsw].
  rewrite (bind_val _ _ _ _ _ _ Hsel).
  assert (Hout :
    (if mem (master_fd s) rlist then forward_output s t else pass) w
    = Run (Val tt) w
          (if mem (master_fd s) rlist then output_calls s t else [])).
  { destruct (mem (master_fd s) rlist); [|reflexivity].
    rewrite forward_output_exact, (output_result_swallowed t Hmr Hsw).
    reflexivity. }
  rewrite (bind_val _ _ _ _ _ _ Hout).
  assert (Hinp :
    (if mem stdin_fileno rlist then forward_input s sh t else pass) w
    = Run (Val tt) w
          (if mem stdin_fileno rlist then input_calls s t else [])).
  { destruct (mem stdin_fileno rlist); [|reflexivity].
    simpl in Heof. apply negb_true_iff in Heof.
    rewrite (forward_input_exact s sh t w Heof),
            (input_result_swallowed t Hsr Hmw).
    reflexivity. }
  rewrite (bind_val _ _ _ _ _ _ Hinp), Hpoll.
  unfold extend. simpl. reflexivity.
Qed.

Lemma survivable_relay (s : Session) (sh : schedule) (ticks : list tick) :
  forall w : World,
    forallb survivable ticks = true ->
    relay s sh ticks w = Run More w (relay_calls s ticks).
Proof.
  induction ticks as [|t ts IH]; intros w H; [reflexivity|].
  cbn [forallb] in H. apply andb_true_iff in H. destruct H as [Ht Hts].
  cbn [relay].
  rewrite (bind_val _ _ _ _ _ _ (survivable_iteration s sh t w Ht)).
  rewrite (IH w Hts). reflexivity.
Qed.

(** X8: failing reads and writes do not end the session.  As long as no
    signal arrives, standard input is not at end of file, the child has
    not exited and the reads and writes return or raise [OSError], the
    loop keeps running and touches no resource, however many iterations
    pass and however many calls fail. *)
Theorem io_errors_do_not_stop_relay
        (s : Session) (sh : schedule) (ticks : list tick) (w : World) :
  forallb survivable ticks = true ->
  result (relay_loop s sh ticks w) = More
  /\ final (relay_loop s sh ticks w) = w
  /\ count is_shutdown_event (events (relay_loop s sh ticks w)) = 0%nat.
Proof.
  intros H.
  rewrite (relay_loop_waiting s sh ticks w w _
             (survivable_relay s sh ticks w H)).
  repeat split. simpl.
  apply (count_none is_shutdown_event is_relay_event).
  - intros ev Hev. destruct ev; try discriminate; reflexivity.
  - apply relay_calls_relay.
Qed.

Lemma io_errors_do_not_stop_relay_witness :
  forallb survivable [Scenario.hung_up; Scenario.broken_pipe;
                      Scenario.hung_up] = true
  /\ result (relay_loop Example.session (Quiet Example.obedient)
                        [Scenario.hung_up; Scenario.broken_pipe;
                         Scenario.hung_up] Example.relaying)
     = More.
Proof.
  assert (H : forallb survivable [Scenario.hung_up; Scenario.broken_pipe;
                                  Scenario.hung_up] = true)
    by reflexivity.
  split; [exact H|].
  apply (io_errors_do_not_stop_relay
           Example.session (Quiet Example.obedient) _ Example.relaying H).
Defined.

(** *** Reads and readiness *)

Lemma iteration_reads (s : Session) (t : tick) (f : fd) :
  count (is_read f) (iteration_calls s t)
  = ((if ready (master_fd s) t && Z.eqb f (master_fd s) then 1 else 0)
     + (if ready stdin_fileno t && Z.eqb f stdin_fileno then 1 else 0))%nat.
Proof.
  unfold iteration_calls, output_calls, input_calls, count.
  cbn [filter is_read]. rewrite !filter_app, !length_app.
  destruct (ready (master_fd s) t), (ready stdin_fileno t);
    destruct (t_master_read t) as [[|b d]|e1];
    destruct (t_stdin_read t) as [[|b' d']|e2];
    cbn [filter is_read andb];
    destruct (Z.eqb f (master_fd s)), (Z.eqb f stdin_fileno);
    reflexivity.
Qed.

Lemma iteration_events_split (s : Session) (sh : schedule) (t : tick)
      (w : World) :
  exists pre suf,
    iteration_calls s t = pre ++ suf
    /\ (events (relay_iteration s sh t w) = pre
        \/ events (relay_iteration s sh t w)
           = pre ++ events (cleanup s sh w)).
Proof.
  destruct (relay_iteration_calls s sh t w)
    as (pre & suf & Hc & [[_ H] | [[e H] | H]]);
    exists pre, suf; (split; [exact Hc|]); rewrite H; auto.
Qed.

(** X9: the loop reads a descriptor only after [select] has reported it
    readable, and then at most once in the iteration, so no read can
    block. *)
Theorem reads_follow_readiness
        (s : Session) (sh : schedule) (t : tick) (w : World) (f : fd) :
  master_fd s <> stdin_fileno ->
  (ready f t = false ->
   count (is_read f) (events (relay_iteration s sh t w)) = 0%nat)
  /\ (count (is_read f) (events (relay_iteration s sh t w)) <= 1)%nat.
Proof.
  intros Hne.
  assert (Hsd : count (is_read f) (events (cleanup s sh w)) = 0%nat).
  { apply shutdown_count_none.
    intros ev Hev. destruct ev; try discriminate; reflexivity. }
  destruct (iteration_events_split s sh t w)
    as (pre & suf & Hc & Hev).
  pose proof (iteration_reads s t f) as Hall.
  rewrite Hc, count_app in Hall.
  assert (Hcount : count (is_read f) (events (relay_iteration s sh t w))
                   = count (is_read f) pre).
  { destruct Hev as [H | H]; rewrite H; [reflexivity|].
    rewrite count_app, Hsd. lia. }
  rewrite Hcount. split.
  - intros Hready.
    destruct (Z.eqb f (master_fd s)) eqn:E1.
    + apply Z.eqb_eq in E1. subst f. rewrite Hready in Hall.
      destruct (Z.eqb (master_fd s) stdin_fileno) eqn:E2;
        [apply Z.eqb_eq in E2; contradiction|].
      rewrite andb_false_r in Hall. simpl in Hall. lia.
    + rewrite andb_false_r in Hall.
      destruct (Z.eqb f stdin_fileno) eqn:E2.
      * apply Z.eqb_eq in E2. subst f. rewrite Hready in Hall.
        simpl in Hall. lia.
      * rewrite andb_false_r in Hall. simpl in Hall. lia.
  - destruct (Z.eqb f (master_fd s)) eqn:E1.
    + apply Z.eqb_eq in E1. subst f.
      destruct (Z.eqb (master_fd s) stdin_fileno) eqn:E2;
        [apply Z.eqb_eq in E2; contradiction|].
      rewrite andb_false_r in Hall.
      destruct (ready (master_fd s) t); simpl in Hall; lia.
    + rewrite andb_false_r in Hall.
      destruct (ready stdin_fileno t && Z.eqb f stdin_fileno);
        simpl in Hall; lia.
Qed.

Lemma reads_follow_readiness_witness :
  master_fd Example.session <> stdin_fileno
  /\ ready stdin_fileno Scenario.hung_up = false
  /\ count (is_read stdin_fileno)
           (events (relay_iteration Example.session (Quiet Example.obedient)
                                    Scenario.hung_up Example.relaying))
     = 0%nat.
Proof.
  assert (Hne : master_fd Example.session <> stdin_fileno)
    by (simpl; discriminate).
  split; [exact Hne | split; [reflexivity|]].
  apply (reads_follow_readiness
           Example.session (Quiet Example.obedient) Scenario.hung_up
           Example.relaying stdin_fileno Hne).
  reflexivity.
Defined.

(** *** What happens once *)

Lemma relay_loop_count_none (p : event -> bool) (s : Session)
      (sh : schedule) (ticks : list tick) (w : World) :
  (forall ev, is_relay_event ev = true -> p ev = false) ->
  (forall ev, is_shutdown_event ev = true -> p ev = false) ->
  count p (events (relay_loop s sh ticks w)) = 0%nat.
Proof.
  intros Hrelay Hshut.
  destruct (relay_loop_events s sh ticks w) as (pre & Hpre & [H | H]);
    rewrite H.
  - apply (count_none p is_relay_event _ Hrelay Hpre).
  - rewrite extend_cleanup. cbn [events].
    rewrite count_app, (count_none p is_relay_event _ Hrelay Hpre),
            (shutdown_count_none p s sh w Hshut).
    reflexivity.
Qed.

(** X10: an execution opens at most one pty pair and calls [Popen] at
    most once, never again after a failure or after the child has exited;
    the two signal handlers are installed either both, once the child has
    been spawned, or not at all. *)
Theorem single_child (e : env) (w : World) :
  (count is_openpty (events (main e w)) <= 1)%nat
  /\ (count is_spawn (events (main e w)) <= 1)%nat
  /\ (count is_handler_install (events (main e w)) = 0%nat
      \/ (count is_handler_install (events (main e w)) = 2%nat
          /\ count is_spawn (events (main e w)) = 1%nat)).
Proof.
  destruct (main_run_cases e w)
    as [[_ H] | [(err & _ & H) | [(m & sl & err & _ & _ & H)
                                 | (m & sl & pid & _ & _ & H)]]];
    rewrite H.
  - simpl. repeat split; auto.
  - simpl. repeat split; auto.
  - simpl. repeat split; auto.
  - unfold extend. cbn [events]. rewrite !count_app.
    rewrite !relay_loop_count_none
      by (intros ev Hev; destruct ev; try discriminate; reflexivity).
    simpl. repeat split; auto.
Qed.

(** X11: the loop starts [cleanup] once.  When no signal disturbs the
    shutdown, a session that has ended has made exactly one close of the
    master, one terminate and, when attributes were captured, one restore,
    even if several triggers fired in the last iteration. *)
Theorem loop_shuts_down_once
        (s : Session) (a : proc_answers) (ticks : list tick) (w : World) :
  result (relay_loop s (Quiet a) ticks w) <> More ->
  close_attempts (master_fd s) (events (relay_loop s (Quiet a) ticks w))
  = 1%nat
  /\ count is_terminate (events (relay_loop s (Quiet a) ticks w)) = 1%nat
  /\ restores (events (relay_loop s (Quiet a) ticks w))
     = match old_settings s with Some _ => 1 | None => 0 end%nat.
Proof.
  intros Hended.
  destruct (relay_loop_events s (Quiet a) ticks w) as (pre & Hpre & [H | H]);
    rewrite H in *.
  - exfalso. apply Hended. reflexivity.
  - rewrite extend_cleanup. cbn [events].
    rewrite cleanup_quiet_calls.
    change (close_attempts (master_fd s))
      with (count (is_close_attempt (master_fd s))).
    change restores with (count is_restore).
    rewrite !count_app.
    rewrite !(count_none _ is_relay_event pre)
      by (try exact Hpre;
          intros ev Hev; destruct ev; try discriminate; reflexivity).
    unfold stop_calls, restore_calls, count.
    destruct (a_terminate a), (a_wait a), (old_settings s);
      cbn [filter is_close_attempt is_terminate is_restore app List.length];
      rewrite ?Z.eqb_refl; repeat split; reflexivity.
Qed.

Lemma loop_shuts_down_once_witness :
  result (relay_loop Example.session (Quiet Example.obedient)
                     [Example.busy; Example.input_closed]
                     Example.relaying) <> More
  /\ count is_terminate
       (events (relay_loop Example.session (Quiet Example.obedient)
                           [Example.busy; Example.input_closed]
                           Example.relaying))
     = 1%nat.
Proof.
  assert (Hended :
    result (relay_loop Example.session (Quiet Example.obedient)
                       [Example.busy; Example.input_closed]
                       Example.relaying) <> More)
    by (simpl; discriminate).
  split; [exact Hended|].
  apply (loop_shuts_down_once
           Example.session Example.obedient
           [Example.busy; Example.input_closed] Example.relaying Hended).
Defined.

(** X12: while the session is running the wrapper holds the master open,
    has closed its copy of the slave, has left the terminal attributes
    alone and has neither terminated nor killed the child. *)
Theorem running_session_invariant
        (e : env) (w : World) (m sl : fd) (pid : Z) :
  (2 <= List.length (e_argv e))%nat ->
  e_openpty e = Returns (m, sl) ->
  e_popen e = Returns pid ->
  m <> sl ->
  result (main e w) = More ->
  In m (open_fds (final (main e w)))
  /\ ~ In sl (open_fds (final (main e w)))
  /\ tty (final (main e w)) = tty w
  /\ count is_terminate (events (main e w)) = 0%nat
  /\ count is_kill (events (main e w)) = 0%nat.
Proof.
  intros Hargv Hpty Hpopen Hne Hrun.
  rewrite (main_started e w _ _ _ Hargv
             (startup_spawned e w m sl pid Hargv Hpty Hpopen)) in *.
  match goal with
  | |- context [relay_loop ?s ?sh ?ticks ?w0] =>
      destruct (relay_loop_events s sh ticks w0) as (pre & Hpre & [Hl | Hl]);
      rewrite Hl in *
  end.
  - cbn [extend final open_fds tty events result].
    split; [|split; [apply remove_In | split; [reflexivity|]]].
    + apply in_in_remove; [exact Hne | right; left; reflexivity].
    + split; rewrite count_app.
      * rewrite (count_none is_terminate is_relay_event pre)
          by (try exact Hpre;
              intros ev Hev; destruct ev; try discriminate; reflexivity).
        reflexivity.
      * rewrite (count_none is_kill is_relay_event pre)
          by (try exact Hpre;
              intros ev Hev; destruct ev; try discriminate; reflexivity).
        reflexivity.
  - rewrite extend_extend, extend_cleanup in Hrun. discriminate.
Qed.

Lemma running_session_invariant_witness :
  (2 <= List.length (e_argv Scenario.long_session))%nat
  /\ Example.master <> Example.slave
  /\ result (main Scenario.long_session Example.terminal) = More
  /\ In Example.master
        (open_fds (final (main Scenario.long_session Example.terminal))).
Proof.
  assert (Hargv : (2 <= List.length (e_argv Scenario.long_session))%nat)
    by (simpl; lia).
  assert (Hne : Example.master <> Example.slave) by discriminate.
  split; [exact Hargv | split; [exact Hne | split; [reflexivity|]]].
  apply (running_session_invariant
           Scenario.long_session Example.terminal
           Example.master Example.slave 4242
           Hargv eq_refl eq_refl Hne eq_refl).
Defined.
